(** * Host-side receiver of the STM32 air-gap gatekeeper

    A shallow embedding of [pc/receiver_test_harness.py] (the receiver:
    [read_frame] and the body of [main]'s polling loop) and of
    [pc/serial_protocol.py] (the peer: [send_frame]), with the statements
    of the protocol properties proved about them.

    Python values are modelled as follows:
    - [bytes] objects are lists of [Byte.byte];
    - [str] objects are lists of Unicode code points (numbers in [N]);
    - [int] objects are numbers in [N] (they are never negative here);
    - the serial port, standard output and the files written are the
      components of a [world] record threaded through a state and
      exception monad. *)

From Stdlib Require Import List NArith ZArith Lia Bool String Ascii.
From Stdlib Require Import DecimalString DecimalN.
From Stdlib.Strings Require Import Byte.
Import ListNotations.

Local Open Scope N_scope.

(** ** Python values *)

Definition bytes := list byte.
Definition str := list N.

(** A string literal of the source, as a list of code points. *)
Definition lit (s : string) : str := map N_of_ascii (list_ascii_of_string s).

(** [s.encode()] / a [b"..."] literal for an ASCII literal of the source. *)
Definition blit (s : string) : bytes :=
  map byte_of_ascii (list_ascii_of_string s).

(** The byte with value [n mod 256]. *)
Definition byte_of_N (n : N) : byte :=
  match Byte.of_N (n mod 256) with
  | Some b => b
  | None => x00
  end.

Fixpoint str_eqb (a b : str) : bool :=
  match a, b with
  | [], [] => true
  | x :: a', y :: b' => (x =? y) && str_eqb a' b'
  | _, _ => false
  end.

(** [s.startswith(p)] *)
Fixpoint startswith (p s : str) : bool :=
  match p, s with
  | [], _ => true
  | x :: p', y :: s' => (x =? y) && startswith p' s'
  | _ :: _, [] => false
  end.

(** [p in s] for strings: [p] occurs as a substring of [s]. *)
Fixpoint contains (p s : str) : bool :=
  startswith p s ||
  match s with
  | [] => false
  | _ :: s' => contains p s'
  end.

(** Python's [str.isspace] on one code point (the table of
    [_PyUnicode_IsWhitespace]). *)
Definition isspace (c : N) : bool :=
  ((0x09 <=? c) && (c <=? 0x0D)) || ((0x1C <=? c) && (c <=? 0x20))
  || (c =? 0x85) || (c =? 0xA0) || (c =? 0x1680)
  || ((0x2000 <=? c) && (c <=? 0x200A))
  || (c =? 0x2028) || (c =? 0x2029) || (c =? 0x202F) || (c =? 0x205F)
  || (c =? 0x3000).

Fixpoint lstrip (s : str) : str :=
  match s with
  | [] => []
  | c :: s' => if isspace c then lstrip s' else s
  end.

Definition rstrip (s : str) : str := rev (lstrip (rev s)).

(** [s.strip()] *)
Definition strip (s : str) : str := rstrip (lstrip s).

(** [s.split(sep)] for a non-empty separator: the pieces between the
    occurrences of [sep], found from left to right without overlap.
    [skip] counts the characters of a separator still to be passed and
    [cur] is the piece being collected. *)
Fixpoint split_from (sep s cur : str) (skip : nat) : list str :=
  match s with
  | [] => [cur]
  | c :: s' =>
      match skip with
      | S k => split_from sep s' cur k
      | O =>
          if startswith sep s
          then cur :: split_from sep s' [] (Nat.pred (List.length sep))
          else split_from sep s' (cur ++ [c]) O
      end
  end.

Definition split (sep s : str) : list str := split_from sep s [] O.

(** [str(n)] for a non-negative integer. *)
Definition str_of_int (n : N) : str :=
  lit (NilEmpty.string_of_uint (N.to_uint n)).

(** [s.lower()] restricted to the ASCII letters (the only letters of a
    hexadecimal encoding). *)
Definition lower_char (c : N) : N :=
  if (0x41 <=? c) && (c <=? 0x5A) then c + 0x20 else c.

Definition lower (s : str) : str := map lower_char s.

(** ** [bytes.decode(errors='ignore')]

    The UTF-8 decoder of CPython with the [ignore] error handler: an
    invalid start byte is dropped, an invalid continuation drops the bytes
    of the sequence read so far, and a sequence cut by the end of the data
    is dropped whole. *)

Definition is_cont (c : N) : bool := (0x80 <=? c) && (c <? 0xC0).

Definition cont_bits (c : N) : N := N.land c 0x3F.

Fixpoint decode_N (s : list N) : str :=
  match s with
  | [] => []
  | ch :: r1 =>
      if ch <? 0x80 then ch :: decode_N r1
      else if ch <? 0xC2 then decode_N r1
      else if ch <? 0xE0 then
        match r1 with
        | [] => []
        | c2 :: r2 =>
            if is_cont c2
            then (N.shiftl (N.land ch 0x1F) 6 + cont_bits c2) :: decode_N r2
            else decode_N r1
        end
      else if ch <? 0xF0 then
        match r1 with
        | [] => []
        | c2 :: r2 =>
            if negb (is_cont c2)
               || (if c2 <? 0xA0 then ch =? 0xE0 else ch =? 0xED)
            then decode_N r1
            else
              match r2 with
              | [] => []
              | c3 :: r3 =>
                  if is_cont c3
                  then (N.shiftl (N.land ch 0x0F) 12
                        + N.shiftl (cont_bits c2) 6 + cont_bits c3)
                       :: decode_N r3
                  else decode_N r2
              end
        end
      else if ch <? 0xF5 then
        match r1 with
        | [] => []
        | c2 :: r2 =>
            if negb (is_cont c2)
               || (if c2 <? 0x90 then ch =? 0xF0 else ch =? 0xF4)
            then decode_N r1
            else
              match r2 with
              | [] => []
              | c3 :: r3 =>
                  if negb (is_cont c3) then decode_N r2
                  else
                    match r3 with
                    | [] => []
                    | c4 :: r4 =>
                        if is_cont c4
                        then (N.shiftl (N.land ch 0x07) 18
                              + N.shiftl (cont_bits c2) 12
                              + N.shiftl (cont_bits c3) 6 + cont_bits c4)
                             :: decode_N r4
                        else decode_N r3
                    end
              end
        end
      else decode_N r1
  end.

Definition decode_ignore (b : bytes) : str := decode_N (map Byte.to_N b).

(** ** [hashlib.sha256(data).hexdigest()]

    SHA-256 (FIPS 180-4) on 32-bit words held in [N], additions taken
    modulo [2^32]. *)

Module SHA256.

Definition w32 (x : N) : N := x mod 2 ^ 32.

Definition add32 (x y : N) : N := w32 (x + y).

Definition rotr (n x : N) : N :=
  N.lor (N.shiftr x n) (w32 (N.shiftl x (32 - n))).

Definition not32 (x : N) : N := N.lxor x 0xFFFFFFFF.

Definition Ch (x y z : N) : N :=
  N.lxor (N.land x y) (N.land (not32 x) z).

Definition Maj (x y z : N) : N :=
  N.lxor (N.lxor (N.land x y) (N.land x z)) (N.land y z).

Definition Sigma0 (x : N) : N :=
  N.lxor (N.lxor (rotr 2 x) (rotr 13 x)) (rotr 22 x).

Definition Sigma1 (x : N) : N :=
  N.lxor (N.lxor (rotr 6 x) (rotr 11 x)) (rotr 25 x).

Definition sigma0 (x : N) : N :=
  N.lxor (N.lxor (rotr 7 x) (rotr 18 x)) (N.shiftr x 3).

Definition sigma1 (x : N) : N :=
  N.lxor (N.lxor (rotr 17 x) (rotr 19 x)) (N.shiftr x 10).

(** The constants of FIPS 180-4 are the first 32 bits of the fractional
    parts of the cube roots (for [K]) and of the square roots (for [H0])
    of the first prime numbers. *)
Definition is_prime (n : N) : bool :=
  (1 <? n)
  && forallb (fun d => negb (n mod d =? 0))
             (map N.of_nat (seq 2 (N.to_nat n - 2))).

Definition primes (k : nat) : list N :=
  firstn k (filter is_prime (map N.of_nat (seq 2 310))).

(** The integer cube root of [x], found bit by bit from bit [bits - 1]
    down. *)
Fixpoint cbrt_bits (bits : nat) (x r : N) : N :=
  match bits with
  | O => r
  | S b =>
      let r' := r + 2 ^ N.of_nat b in
      cbrt_bits b x (if r' * r' * r' <=? x then r' else r)
  end.

Definition frac_cbrt32 (p : N) : N := cbrt_bits 36 (p * 2 ^ 96) 0 mod 2 ^ 32.

Definition frac_sqrt32 (p : N) : N := N.sqrt (p * 2 ^ 64) mod 2 ^ 32.

Definition K : list N := Eval vm_compute in map frac_cbrt32 (primes 64).

Definition H0 : list N := Eval vm_compute in map frac_sqrt32 (primes 8).

(** Big-endian encoding of [n] on [k] bytes, as numbers. *)
Fixpoint be_bytes (k : nat) (n : N) : list N :=
  match k with
  | O => []
  | S k' => (N.shiftr n (8 * N.of_nat k')) mod 256 :: be_bytes k' n
  end.

(** Big-endian value of a list of bytes. *)
Definition be_value (l : list N) : N :=
  fold_left (fun acc b => acc * 256 + b) l 0.

(** The message followed by the bit 1, zero bits up to 56 modulo 64 bytes
    and the bit length of the message on 64 bits. *)
Definition pad (msg : list N) : list N :=
  let len := N.of_nat (List.length msg) in
  let zeros := (119 - len mod 64) mod 64 in
  msg ++ [0x80] ++ repeat 0 (N.to_nat zeros)
      ++ be_bytes 8 ((8 * len) mod 2 ^ 64).

(** The big-endian 32-bit words of a list of bytes. *)
Fixpoint words (l : list N) : list N :=
  match l with
  | a :: b :: c :: d :: r => be_value [a; b; c; d] :: words r
  | _ => []
  end.

(** The blocks of 16 words of a list of words. *)
Fixpoint blocks (fuel : nat) (ws : list N) : list (list N) :=
  match fuel, ws with
  | S f, _ :: _ => firstn 16 ws :: blocks f (skipn 16 ws)
  | _, _ => []
  end.

(** The message schedule: [n] more words after the words [w], which are
    held newest first. *)
Fixpoint schedule (n : nat) (w : list N) : list N :=
  match n with
  | O => w
  | S n' =>
      let wt := add32 (add32 (sigma1 (nth 1 w 0)) (nth 6 w 0))
                      (add32 (sigma0 (nth 14 w 0)) (nth 15 w 0)) in
      schedule n' (wt :: w)
  end.

Definition round (s : list N) (kw : N * N) : list N :=
  match s with
  | [a; b; c; d; e; f; g; h] =>
      let t1 := add32 (add32 (add32 h (Sigma1 e)) (add32 (Ch e f g) (fst kw)))
                      (snd kw) in
      let t2 := add32 (Sigma0 a) (Maj a b c) in
      [add32 t1 t2; a; b; c; add32 d t1; e; f; g]
  | _ => s
  end.

Definition compress (h : list N) (block : list N) : list N :=
  let w := rev (schedule 48 (rev block)) in
  let s := fold_left round (combine K w) h in
  map (fun p => add32 (fst p) (snd p)) (combine h s).

Definition digest_words (msg : list N) : list N :=
  let ws := words (pad msg) in
  fold_left compress (blocks (List.length ws) ws) H0.

(** [hashlib.sha256(data).digest()], as numbers. *)
Definition digest (data : bytes) : list N :=
  flat_map (be_bytes 4) (digest_words (map Byte.to_N data)).

End SHA256.

(** The lower-case hexadecimal digit of a number below 16. *)
Definition hex_digit (n : N) : N :=
  if n <? 10 then 0x30 + n else 0x61 + (n - 10).

(** [hashlib.sha256(data).hexdigest()] *)
Definition sha256_hexdigest (data : bytes) : str :=
  flat_map (fun b => [hex_digit (b / 16); hex_digit (b mod 16)])
           (SHA256.digest data).

(** ** The world of the process and its monad *)

(** What the serial port delivers next: a byte, or a silence as long as
    the port's timeout (one second), at which a pending read returns
    with what it has.  Past the end of the list the line stays silent. *)
Inductive rx_event : Type :=
  | RxByte (b : byte)
  | RxTimeout.

Record world : Type := mkWorld {
  ser_in : list rx_event;       (* what [ser] will deliver *)
  ser_out : bytes;              (* what was written to [ser], in order *)
  stdout : list str;            (* the arguments of [print], in order *)
  written : list (str * bytes)  (* the files written: name and content *)
}.

Inductive exn : Type :=
  | IndexError
  | StructError.

(** The outcome of a computation: a value, a Python exception, or
    [NoFuel] when the bound on the iterations of a loop was reached. *)
Inductive outcome (A : Type) : Type :=
  | Ok (a : A)
  | Raise (e : exn)
  | NoFuel.

Arguments Ok {A} a.
Arguments Raise {A} e.
Arguments NoFuel {A}.

Definition M (A : Type) : Type := world -> outcome A * world.

Definition ret {A} (a : A) : M A := fun w => (Ok a, w).

Definition raise {A} (e : exn) : M A := fun w => (Raise e, w).

Definition bind {A B} (c : M A) (k : A -> M B) : M B :=
  fun w =>
    match c w with
    | (Ok a, w') => k a w'
    | (Raise e, w') => (Raise e, w')
    | (NoFuel, w') => (NoFuel, w')
    end.

Notation "x <- c ;; k" := (bind c (fun x => k))
  (at level 61, c at next level, right associativity).
Notation "c ;; k" := (bind c (fun _ => k))
  (at level 61, right associativity).

(** *** The serial port: [ser.read], [ser.readline], [ser.write] *)

(** [ser.read(n)]: bytes are taken until [n] of them are read or the
    timeout passes. *)
Fixpoint rx_read (rx : list rx_event) (n : N) {struct rx}
  : bytes * list rx_event :=
  if n =? 0 then ([], rx)
  else
    match rx with
    | [] => ([], [])
    | RxTimeout :: r => ([], r)
    | RxByte b :: r =>
        let (d, r') := rx_read r (n - 1) in (b :: d, r')
    end.

(** [ser.readline()]: [read(1)] is repeated until a line feed was read
    or a read returned nothing. *)
Fixpoint rx_readline (rx : list rx_event) : bytes * list rx_event :=
  match rx with
  | [] => ([], [])
  | RxTimeout :: r => ([], r)
  | RxByte b :: r =>
      if Byte.eqb b x0a then ([b], r)
      else let (d, r') := rx_readline r in (b :: d, r')
  end.

Definition set_ser_in (w : world) (rx : list rx_event) : world :=
  mkWorld rx (ser_out w) (stdout w) (written w).

Definition ser_read (n : N) : M bytes :=
  fun w => let (d, r) := rx_read (ser_in w) n in (Ok d, set_ser_in w r).

Definition ser_readline : M bytes :=
  fun w => let (d, r) := rx_readline (ser_in w) in (Ok d, set_ser_in w r).

Definition ser_write (d : bytes) : M unit :=
  fun w => (Ok tt, mkWorld (ser_in w) (ser_out w ++ d) (stdout w) (written w)).

(** [print(s)] *)
Definition print (s : str) : M unit :=
  fun w => (Ok tt, mkWorld (ser_in w) (ser_out w) (stdout w ++ [s]) (written w)).

(** [with open(name, "wb") as f: f.write(d)] *)
Definition write_file (name : str) (d : bytes) : M unit :=
  fun w =>
    (Ok tt, mkWorld (ser_in w) (ser_out w) (stdout w) (written w ++ [(name, d)])).

(** *** Partial operations of Python *)

(** [l[i]] *)
Definition index {A} (l : list A) (i : nat) : M A :=
  match nth_error l i with
  | Some x => ret x
  | None => raise IndexError
  end.

(** [b[i]] for a [bytes] object: the value of the byte. *)
Definition byte_at (b : bytes) (i : nat) : M N :=
  x <- index b i ;; ret (Byte.to_N x).

(** [struct.unpack(">I", b)[0]] *)
Definition struct_unpack_I (b : bytes) : M N :=
  match b with
  | [b3; b2; b1; b0] => ret (SHA256.be_value (map Byte.to_N b))
  | _ => raise StructError
  end.

(** [struct.pack(">I", n)] *)
Definition struct_pack_I (n : N) : M bytes :=
  if n <=? 0xFFFFFFFF
  then ret (map byte_of_N (SHA256.be_bytes 4 n))
  else raise StructError.

Definition len {A} (l : list A) : N := N.of_nat (List.length l).

(** [not b] for a [bytes] object. *)
Definition falsy (b : bytes) : bool :=
  match b with
  | [] => true
  | _ :: _ => false
  end.

(** ** [pc/receiver_test_harness.py] *)

Definition START_MARK : N := 0xAA.
Definition END_MARK : N := 0x55.

Definition WARN_BAD_TAIL : str := lit "[WARN] Bad tail marker".

(** [read_frame(ser)]; [None] is Python's [None]. *)
Definition read_frame : M (option bytes) :=
  b <- ser_read 1 ;;
  bad <- (if falsy b then ret true
          else b0 <- byte_at b 0 ;; ret (negb (b0 =? START_MARK))) ;;
  if bad : bool then ret None
  else
    hdr <- ser_read 4 ;;
    if negb (len hdr =? 4) then ret None
    else
      length <- struct_unpack_I hdr ;;
      data <- ser_read length ;;
      tail <- ser_read 1 ;;
      bad_tail <- (if negb (len tail =? 1) then ret true
                   else t0 <- byte_at tail 0 ;; ret (negb (t0 =? END_MARK))) ;;
      (if bad_tail : bool then print WARN_BAD_TAIL else ret tt) ;;
      ret (Some data).

(** *** The polling loop of [main] *)

(** The local variables of [main]. *)
Record locals : Type := mkLocals {
  ciphertext : bytes;
  file_counter : N;
  current_hash_expected : option str
}.

Definition LF : N := 0x0A.

Definition CUT : bytes := blit "CUT" ++ [x0a].
Definition ALLOW : bytes := blit "ALLOW" ++ [x0a].

(** The inner loop under [CHUNK_START]:
    [while True: frame = read_frame(ser); if frame: ciphertext += frame;
     else: break], run for at most [fuel] iterations. *)
Fixpoint frame_loop (fuel : nat) (ciphertext : bytes) : M bytes :=
  match fuel with
  | O => fun w => (NoFuel, w)
  | S fuel' =>
      frame <- read_frame ;;
      match frame with
      | Some ((_ :: _) as data) => frame_loop fuel' (ciphertext ++ data)
      | _ => ret ciphertext
      end
  end.

(** The inner loop with a bound that it never reaches (lemma
    [stream_frames_returns]): a frame that keeps the loop going takes
    bytes from the port. *)
Definition stream_frames (ciphertext : bytes) : M bytes :=
  fun w => frame_loop (S (List.length (ser_in w))) ciphertext w.

(** The name of the capture file: [f"received_{file_counter}.bin"]. *)
Definition capture_name (file_counter : N) : str :=
  lit "received_" ++ str_of_int file_counter ++ lit ".bin".

(** The branch [elif line.startswith("HASH:")]. *)
Definition on_hash (line : str) (l : locals) : M locals :=
  piece <- index (split (lit "HASH:") line) 1 ;;
  let current_hash_expected := strip piece in
  print (lit "[STM32] Expected HASH: " ++ current_hash_expected) ;;
  let h := sha256_hexdigest (ciphertext l) in
  print (lit "[PC] Calculated HASH: " ++ h) ;;
  (if negb (str_eqb h current_hash_expected)
   then print (lit "[!] HASH mismatch! Sending CUT") ;; ser_write CUT
   else print (lit "[OK] HASH match. Sending ALLOW") ;; ser_write ALLOW) ;;
  let file_counter := file_counter l + 1 in
  write_file (capture_name file_counter) (ciphertext l) ;;
  ret (mkLocals [] file_counter (Some current_hash_expected)).

(** The [if]/[elif] chain of the loop body, for a non-empty [line]. *)
Definition handle_line (line : str) (l : locals) : M locals :=
  if startswith (lit "EVENT:USB_INSERTED") line then
    print (lit "[STM32] USB Inserted") ;;
    ret (mkLocals [] (file_counter l) None)
  else if str_eqb line (lit "CHUNK_START") then
    print (lit "[STM32] Beginning file stream...") ;;
    c <- stream_frames (ciphertext l) ;;
    ret (mkLocals c (file_counter l) (current_hash_expected l))
  else if startswith (lit "HASH:") line then
    on_hash line l
  else if startswith (lit "ACTION:RELAY_CUT") line then
    print (lit "[STM32] Relay CUT acknowledged.") ;; ret l
  else if startswith (lit "ACTION:RELAY_ALLOW") line then
    print (lit "[STM32] Relay ALLOW acknowledged.") ;; ret l
  else if startswith (lit "STATUS:COMPLETE") line then
    print (lit "[STM32] Transfer complete." ++ [LF]) ;; ret l
  else if contains (lit "ERROR") line then
    print (lit "[STM32 ERROR] " ++ line) ;; ret l
  else ret l.

(** [line = ser.readline().decode(errors='ignore').strip()] *)
Definition next_line : M str :=
  raw <- ser_readline ;; ret (strip (decode_ignore raw)).

(** One iteration of [while True:] in [main] ([time.sleep] changes
    nothing that is modelled). *)
Definition loop_body (l : locals) : M locals :=
  line <- next_line ;;
  match line with
  | [] => ret l
  | _ :: _ => handle_line line l
  end.

(** [n] iterations of the polling loop. *)
Fixpoint iterate (n : nat) (l : locals) : M locals :=
  match n with
  | O => ret l
  | S n' => l' <- loop_body l ;; iterate n' l'
  end.

(** The variables of [main] when the loop is entered. *)
Definition initial : locals := mkLocals [] 0 None.

(** [main()] with [sys.argv = argv], the polling loop run [n] times. *)
Definition main (argv : list str) (n : nat) : M (option locals) :=
  if len argv <? 2 then
    print (lit "Usage: python receiver.py <COM_PORT>") ;;
    print (lit "Example: python receiver.py COM5") ;;
    ret None
  else
    port <- index argv 1 ;;
    print (lit "[INFO] Listening on " ++ port) ;;
    l <- iterate n initial ;;
    ret (Some l).

(** ** [pc/serial_protocol.py]

    The marks [START_MARK] and [END_MARK] of this file are those of the
    receiver. *)

(** [send_frame(ser, data)] *)
Definition send_frame (data : bytes) : M unit :=
  ser_write [byte_of_N START_MARK] ;;
  hdr <- struct_pack_I (len data) ;;
  ser_write hdr ;;
  ser_write data ;;
  ser_write [byte_of_N END_MARK].

(** [range(0, stop, step)] *)
Definition range_step (stop step : N) : list N :=
  map (fun k => step * N.of_nat k) (seq 0 (N.to_nat ((stop + step - 1) / step))).

(** [b[i:j]] *)
Definition slice (b : bytes) (i j : N) : bytes :=
  firstn (N.to_nat (j - i)) (skipn (N.to_nat i) b).

(** [s.encode()] for a string of ASCII characters. *)
Definition encode (s : str) : bytes := map byte_of_N s.

Fixpoint for_each {A} (l : list A) (body : A -> M unit) : M unit :=
  match l with
  | [] => ret tt
  | x :: l' => body x ;; for_each l' body
  end.

(** The sequence that [main] sends, from its first write to the print
    that precedes its reading loop, for the [payload] it drew and the
    value [hash_hex] it announces. *)
Definition simulate (payload : bytes) (hash_hex : str) : M unit :=
  ser_write (blit "EVENT:USB_INSERTED" ++ [x0a]) ;;
  ser_write (blit "CHUNK_START" ++ [x0a]) ;;
  for_each (range_step (len payload) 4096)
    (fun i => send_frame (slice payload i (i + 4096))) ;;
  ser_write (blit "CHUNK_END" ++ [x0a]) ;;
  ser_write (encode (lit "HASH:" ++ hash_hex ++ [LF])) ;;
  ser_write (blit "STATUS:COMPLETE" ++ [x0a]) ;;
  print (lit "[DONE] Fake transfer sent. Waiting for PC response...").

(** [main] of the peer announces the digest of the payload. *)
Definition sender_main (payload : bytes) : M unit :=
  simulate payload (sha256_hexdigest payload).

(** ** Notions used in the statements *)

(** A world in which the port will deliver [rx] and nothing has been
    written yet. *)
Definition fresh (rx : list rx_event) : world := mkWorld rx [] [] [].

(** Bytes that arrive with no silence between them. *)
Definition wire (b : bytes) : list rx_event := map RxByte b.

(** The head of a frame that declares [n] bytes of payload: the start
    marker and [n] on four bytes, most significant first. *)
Definition frame_header (n : N) : bytes :=
  byte_of_N START_MARK :: map byte_of_N (SHA256.be_bytes 4 n).

(** The bytes of the frame that carries [payload]: start marker, length
    on four bytes, payload, end marker. *)
Definition frame_bytes (payload : bytes) : bytes :=
  frame_header (len payload) ++ payload ++ [byte_of_N END_MARK].

(** The value announced by a line that starts with [HASH:], as the
    receiver takes it: [line.split("HASH:")[1].strip()]. *)
Definition announced (line : str) : str :=
  strip (nth 1 (split (lit "HASH:") line) []).

(** The lines that [n] iterations of the polling loop read. *)
Fixpoint lines_read (n : nat) (l : locals) (w : world) : list str :=
  match n with
  | O => []
  | S n' =>
      match next_line w with
      | (Ok line, _) =>
          line :: match loop_body l w with
                  | (Ok l', w') => lines_read n' l' w'
                  | _ => []
                  end
      | _ => []
      end
  end.

(** What follows a payload on the wire when the end marker is missing or
    wrong: nothing, a silence, or a byte other than [END_MARK]. *)
Definition bad_tail (after : list rx_event) : Prop :=
  match after with
  | [] => True
  | RxTimeout :: _ => True
  | RxByte t :: _ => Byte.to_N t <> END_MARK
  end.

(** What follows the bytes that did arrive when a payload is cut short:
    nothing more, or a silence. *)
Definition cut_short (after : list rx_event) : Prop :=
  match after with
  | [] => True
  | RxTimeout :: _ => True
  | RxByte _ :: _ => False
  end.

(** The counters [1], ..., [n] in order. *)
Definition counters (n : N) : list N :=
  map (fun k => N.of_nat (S k)) (seq 0 (N.to_nat n)).

(** The digests of the scenarios. *)
Definition SHA_EMPTY : str :=
  lit "e3b0c44298fc1c149afbf4c8996fb92427ae41e4649b934ca495991b7852b855".
Definition SHA_ZEROS16 : str :=
  lit "374708fff7719dd5979ec875d56cd2286f6d3cf7ec317a3b25632aab28ec37bb".
(** [SHA_ZEROS16] with its first character changed. *)
Definition SHA_ZEROS16_FLIPPED : str :=
  lit "274708fff7719dd5979ec875d56cd2286f6d3cf7ec317a3b25632aab28ec37bb".

Definition zeros16 : bytes := repeat x00 16.

(** What the receiver is sent in a scenario: the output of the peer. *)
Definition scenario (payload : bytes) (hash_hex : str) : list rx_event :=
  wire (ser_out (snd (simulate payload hash_hex (fresh [])))).

(** Whether what was read after the payload is the end marker. *)
Definition tail_ok (tail : bytes) : bool :=
  match tail with
  | [t] => Byte.to_N t =? END_MARK
  | _ => false
  end.

(** The command that answers the announcement of [expected] when the
    buffer holds [buffer]. *)
Definition verdict_command (buffer : bytes) (expected : str) : bytes :=
  if str_eqb (sha256_hexdigest buffer) expected then ALLOW else CUT.

(** What the branch of [HASH:] prints. *)
Definition hash_log (buffer : bytes) (expected : str) : list str :=
  [lit "[STM32] Expected HASH: " ++ expected;
   lit "[PC] Calculated HASH: " ++ sha256_hexdigest buffer;
   if str_eqb (sha256_hexdigest buffer) expected
   then lit "[OK] HASH match. Sending ALLOW"
   else lit "[!] HASH mismatch! Sending CUT"].

(** The files written so far are the captures numbered from 1 to the
    counter, in this order. *)
Definition captures_numbered (l : locals) (w : world) : Prop :=
  map fst (written w) = map capture_name (counters (file_counter l)).

(** ** The rest of [pc/serial_protocol.py] *)

(** One iteration of the reading loop that ends [main] of the peer:
    [line = ser.readline().decode(errors='ignore').strip()] and, for a
    non-empty line, [print("[RX from PC]", line)]. *)
Definition peer_loop_body : M unit :=
  line <- next_line ;;
  match line with
  | [] => ret tt
  | _ :: _ => print (lit "[RX from PC]" ++ [0x20] ++ line)
  end.

Fixpoint peer_iterate (n : nat) : M unit :=
  match n with
  | O => ret tt
  | S n' => peer_loop_body ;; peer_iterate n'
  end.

(** [main()] of the peer with [sys.argv = argv], for the [payload] that
    [os.urandom] returns, its reading loop run [n] times. *)
Definition peer_main (argv : list str) (payload : bytes) (n : nat) : M unit :=
  if len argv <? 2 then
    print (lit "Usage: python serial_test_sender.py <COM_PORT>") ;;
    print (lit "Example: python serial_test_sender.py COM6")
  else
    port <- index argv 1 ;;
    print (lit "[INFO] Simulating STM32 on " ++ port) ;;
    sender_main payload ;;
    peer_iterate n.

(** ** Further notions used in the statements *)

(** The pieces that the peer frames: [payload[i:i+4096]] for [i] in
    [range(0, len(payload), 4096)]. *)
Definition chunks (payload : bytes) : list bytes :=
  map (fun i => slice payload i (i + 4096)) (range_step (len payload) 4096).

(** The bytes of a whole session as the peer sends it. *)
Definition session_bytes (payload : bytes) (hash_hex : str) : bytes :=
  (blit "EVENT:USB_INSERTED" ++ [x0a])
  ++ (blit "CHUNK_START" ++ [x0a])
  ++ List.concat (map frame_bytes (chunks payload))
  ++ (blit "CHUNK_END" ++ [x0a])
  ++ encode (lit "HASH:" ++ hash_hex ++ [LF])
  ++ (blit "STATUS:COMPLETE" ++ [x0a]).

(** The hexadecimal digits, and those in lower case. *)
Definition is_lower_hex (c : N) : bool :=
  ((0x30 <=? c) && (c <=? 0x39)) || ((0x61 <=? c) && (c <=? 0x66)).

Definition is_hex (c : N) : bool :=
  is_lower_hex c || ((0x41 <=? c) && (c <=? 0x46)).

(** What ends a burst of frames: nothing more, a silence, or a byte
    other than [START_MARK]. *)
Definition no_frame (after : list rx_event) : Prop :=
  match after with
  | [] => True
  | RxTimeout :: _ => True
  | RxByte b :: _ => Byte.to_N b <> START_MARK
  end.

(** A payload that keeps the inner loop going and that a frame can
    carry. *)
Definition carried (p : bytes) : Prop := p <> [] /\ len p <= 0xFFFFFFFF.

(** The variables of [main] with another value remembered for the hash
    announced last. *)
Definition with_expected (l : locals) (h : option str) : locals :=
  mkLocals (ciphertext l) (file_counter l) h.

(** A sequence of commands of the receiver. *)
Definition commands (cmds : list bytes) : Prop :=
  Forall (fun c => c = ALLOW \/ c = CUT) cmds.

(** In a run, as many commands were sent as captures were written, and
    the counter counts them. *)
Definition accounted (l : locals) (w : world) : Prop :=
  exists cmds : list bytes,
    ser_out w = List.concat cmds
    /\ commands cmds
    /\ List.length cmds = N.to_nat (file_counter l)
    /\ List.length (written w) = N.to_nat (file_counter l).

(** * Properties *)

(** ** Known answers of SHA-256

    The digests of the empty string, of ["abc"] and of the two-block
    message of FIPS 180-4, and the digest of sixteen zero bytes. *)

Example sha256_empty : sha256_hexdigest [] = SHA_EMPTY.
Proof. vm_compute. reflexivity. Qed.

Example sha256_abc :
  sha256_hexdigest (blit "abc")
  = lit "ba7816bf8f01cfea414140de5dae2223b00361a396177a9cb410ff61f20015ad".
Proof. vm_compute. reflexivity. Qed.

Example sha256_two_blocks :
  sha256_hexdigest
    (blit "abcdbcdecdefdefgefghfghighijhijkijkljklmklmnlmnomnopnopq")
  = lit "248d6a61d20638b8e5c026930c3e6039a33ce45964ff2167f6ecedd419db06c1".
Proof. vm_compute. reflexivity. Qed.

Example sha256_zeros16 : sha256_hexdigest zeros16 = SHA_ZEROS16.
Proof. vm_compute. reflexivity. Qed.

(** ** Values *)

Lemma str_eqb_eq (a b : str) : str_eqb a b = true <-> a = b.
Proof.
  revert b. induction a as [|x a IH]; intros [|y b]; simpl;
    try (split; [discriminate | congruence]); try tauto.
  rewrite andb_true_iff, N.eqb_eq, IH. split.
  - intros [-> ->]. reflexivity.
  - intros E. injection E. auto.
Qed.

Lemma str_eqb_refl (a : str) : str_eqb a a = true.
Proof. apply str_eqb_eq. reflexivity. Qed.

Lemma to_N_byte_of_N (n : N) : n < 256 -> Byte.to_N (byte_of_N n) = n.
Proof.
  intros H. unfold byte_of_N. rewrite N.mod_small by exact H.
  destruct (Byte.of_N n) as [b|] eqn:E.
  - apply Byte.to_of_N. exact E.
  - apply Byte.of_N_None_iff in E. lia.
Qed.

Lemma byte_of_N_to_N (b : byte) : byte_of_N (Byte.to_N b) = b.
Proof.
  unfold byte_of_N. rewrite N.mod_small.
  - rewrite Byte.of_to_N. reflexivity.
  - pose proof (Byte.to_N_bounded b). lia.
Qed.

Lemma len_app {A} (l1 l2 : list A) : len (l1 ++ l2) = len l1 + len l2.
Proof. unfold len. rewrite length_app. lia. Qed.

Lemma len_nil_iff {A} (l : list A) : len l = 0 <-> l = [].
Proof.
  unfold len. destruct l; simpl; split; intros H;
    try reflexivity; try discriminate; lia.
Qed.

(** *** Big-endian numbers *)

Lemma be_fold (l : list N) (acc : N) :
  fold_left (fun a b => a * 256 + b) l acc
  = acc * 256 ^ len l + SHA256.be_value l.
Proof.
  unfold SHA256.be_value. revert acc.
  induction l as [|x l IH]; intros acc.
  - unfold len. simpl. lia.
  - cbn [fold_left]. rewrite IH, (IH (0 * 256 + x)).
    replace (len (x :: l)) with (N.succ (len l)) by (unfold len; simpl; lia).
    rewrite N.pow_succ_r'. lia.
Qed.

Lemma be_bytes_length (k : nat) (n : N) :
  List.length (SHA256.be_bytes k n) = k.
Proof. induction k; simpl; congruence. Qed.

Lemma be_bytes_bounded (k : nat) (n x : N) :
  In x (SHA256.be_bytes k n) -> x < 256.
Proof.
  induction k as [|k IH]; simpl; [tauto|].
  intros [<- | H]; [apply N.mod_lt; discriminate | auto].
Qed.

Lemma be_value_be_bytes (k : nat) (n : N) :
  SHA256.be_value (SHA256.be_bytes k n) = n mod 256 ^ N.of_nat k.
Proof.
  induction k as [|k IH].
  - simpl. rewrite N.mod_1_r. reflexivity.
  - cbn [SHA256.be_bytes]. unfold SHA256.be_value. cbn [fold_left].
    rewrite be_fold, IH. unfold len. rewrite be_bytes_length.
    rewrite N.shiftr_div_pow2.
    replace (2 ^ (8 * N.of_nat k)) with (256 ^ N.of_nat k)
      by (change 256 with (2 ^ 8); rewrite <- N.pow_mul_r; reflexivity).
    rewrite Nat2N.inj_succ, N.pow_succ_r', (N.mul_comm 256).
    rewrite N.Div0.mod_mul_r. lia.
Qed.

Lemma unpack_pack (n : N) :
  n <= 0xFFFFFFFF ->
  SHA256.be_value (map Byte.to_N (map byte_of_N (SHA256.be_bytes 4 n))) = n.
Proof.
  intros H. rewrite map_map.
  rewrite (map_ext_in _ (fun x => x)), map_id.
  - rewrite be_value_be_bytes. apply N.mod_small.
    change (256 ^ N.of_nat 4) with 4294967296. lia.
  - intros x Hx. apply to_N_byte_of_N. eapply be_bytes_bounded. exact Hx.
Qed.

(** ** The serial port *)

Lemma len_cons {A} (x : A) (l : list A) : len (x :: l) = N.succ (len l).
Proof. unfold len. cbn [List.length]. apply Nat2N.inj_succ. Qed.

Lemma len_length {A} (l : list A) : N.to_nat (len l) = List.length l.
Proof. unfold len. apply Nat2N.id. Qed.

Lemma rx_read_0 (rx : list rx_event) : rx_read rx 0 = ([], rx).
Proof. destruct rx; reflexivity. Qed.

Lemma rx_read_byte (b : byte) (rx : list rx_event) (n : N) :
  n <> 0 ->
  rx_read (RxByte b :: rx) n
  = (b :: fst (rx_read rx (n - 1)), snd (rx_read rx (n - 1))).
Proof.
  intros H. cbn [rx_read]. apply N.eqb_neq in H. rewrite H.
  destruct (rx_read rx (n - 1)). reflexivity.
Qed.

(** A read of as many bytes as are pending, with no silence among them,
    returns them all. *)
Lemma rx_read_wire (d : bytes) (rest : list rx_event) :
  rx_read (wire d ++ rest) (len d) = (d, rest).
Proof.
  induction d as [|b d IH].
  - apply rx_read_0.
  - change (wire (b :: d) ++ rest) with (RxByte b :: (wire d ++ rest)).
    rewrite len_cons, rx_read_byte by lia.
    replace (N.succ (len d) - 1) with (len d) by lia.
    rewrite IH. reflexivity.
Qed.

(** A read cut short by the end of the data or by a silence returns
    the bytes that came before. *)
Lemma rx_read_cut (d : bytes) (after : list rx_event) (n : N) :
  len d < n -> cut_short after ->
  rx_read (wire d ++ after) n = (d, tl after).
Proof.
  revert n. induction d as [|b d IH]; intros n Hn Hc.
  - simpl. destruct after as [|[t|] after]; simpl in Hc; try tauto;
      cbn [rx_read]; (replace (n =? 0) with false
        by (symmetry; apply N.eqb_neq; change (len (@nil byte)) with 0 in Hn;
            lia));
      reflexivity.
  - change (wire (b :: d) ++ after) with (RxByte b :: (wire d ++ after)).
    rewrite len_cons in Hn. rewrite rx_read_byte by lia.
    rewrite IH; [reflexivity | lia | exact Hc].
Qed.

(** A read never returns more than it was asked for, and never gives
    bytes back to the port. *)
Lemma rx_read_bounds (rx : list rx_event) (n : N) :
  len (fst (rx_read rx n)) <= n
  /\ (List.length (snd (rx_read rx n)) <= List.length rx)%nat
  /\ (fst (rx_read rx n) <> [] ->
      (List.length (snd (rx_read rx n)) < List.length rx)%nat).
Proof.
  revert n. induction rx as [|[b|] rx IH]; intros n.
  - cbn [rx_read]. destruct (n =? 0); simpl; unfold len; simpl;
      repeat split; try lia; congruence.
  - destruct (N.eq_dec n 0) as [->|Hn].
    + rewrite rx_read_0. simpl. unfold len. simpl. repeat split; try lia.
      congruence.
    + rewrite rx_read_byte by exact Hn. simpl.
      destruct (IH (n - 1)) as (H1 & H2 & _).
      rewrite len_cons. repeat split; lia.
  - cbn [rx_read]. destruct (n =? 0); simpl; unfold len; simpl;
      repeat split; try lia; congruence.
Qed.

Lemma rx_read_one (rx : list rx_event) :
  rx_read rx 1
  = match rx with
    | [] => ([], [])
    | RxTimeout :: r => ([], r)
    | RxByte b :: r => ([b], r)
    end.
Proof.
  destruct rx as [|[b|] r]; try reflexivity.
  rewrite rx_read_byte by discriminate. simpl. rewrite rx_read_0.
  reflexivity.
Qed.

(** ** [read_frame] *)

Lemma bind_ok {A B} (c : M A) (k : A -> M B) (w w' : world) (a : A) :
  c w = (Ok a, w') -> bind c k w = k a w'.
Proof. intros H. unfold bind. rewrite H. reflexivity. Qed.

Lemma rx_read_four (b3 b2 b1 b0 : byte) (rest : list rx_event) :
  rx_read (wire [b3; b2; b1; b0] ++ rest) 4 = ([b3; b2; b1; b0], rest).
Proof. apply (rx_read_wire [b3; b2; b1; b0]). Qed.

Lemma len_not_four (a b c d e : byte) (hdr : bytes) :
  (len (a :: b :: c :: d :: e :: hdr) =? 4) = false.
Proof. apply N.eqb_neq. rewrite !len_cons. lia. Qed.

(** The statements of [read_frame] that follow the unpacking of the
    length, run. *)
Lemma read_payload_run (length : N) (w : world) :
  (data <- ser_read length ;;
   tail <- ser_read 1 ;;
   bad_tail <- (if negb (len tail =? 1) then ret true
                else t0 <- byte_at tail 0 ;; ret (negb (t0 =? END_MARK))) ;;
   (if bad_tail : bool then print WARN_BAD_TAIL else ret tt) ;;
   ret (Some data)) w
  = let (data, r1) := rx_read (ser_in w) length in
    let (tail, r2) := rx_read r1 1 in
    (Ok (Some data),
     mkWorld r2 (ser_out w)
             (if tail_ok tail then stdout w else stdout w ++ [WARN_BAD_TAIL])
             (written w)).
Proof.
  unfold bind at 1, ser_read at 1.
  destruct (rx_read (ser_in w) length) as [data r1].
  unfold bind at 1, ser_read at 1. cbn [ser_in set_ser_in].
  pose proof (rx_read_bounds r1 1) as (Ht & _).
  destruct (rx_read r1 1) as [tail r2]. cbn [fst] in Ht.
  destruct tail as [|t [|t' tail]].
  - reflexivity.
  - change (negb (len [t] =? 1)) with false. cbv iota.
    unfold byte_at, index. cbn [nth_error tail_ok].
    unfold bind, ret. destruct (Byte.to_N t =? END_MARK); reflexivity.
  - rewrite !len_cons in Ht. lia.
Qed.

(** [read_frame] by cases on what the port delivers: no byte, a byte
    that is not the start marker, a length cut short, or a length. *)
Lemma read_frame_cases (w : world) :
  read_frame w
  = match ser_in w with
    | RxByte b :: rx =>
        if Byte.to_N b =? START_MARK then
          let (hdr, r) := rx_read rx 4 in
          match hdr with
          | [b3; b2; b1; b0] =>
              let (data, r1) := rx_read r (SHA256.be_value (map Byte.to_N hdr)) in
              let (tail, r2) := rx_read r1 1 in
              (Ok (Some data),
               mkWorld r2 (ser_out w)
                       (if tail_ok tail then stdout w
                        else stdout w ++ [WARN_BAD_TAIL])
                       (written w))
          | _ => (Ok None, set_ser_in w r)
          end
        else (Ok None, set_ser_in w rx)
    | RxTimeout :: rx => (Ok None, set_ser_in w rx)
    | [] => (Ok None, set_ser_in w [])
    end.
Proof.
  destruct w as [rx so out wr]. cbn [ser_in ser_out stdout written].
  destruct rx as [|[b|] rx]; try reflexivity.
  unfold read_frame.
  erewrite bind_ok
    by (unfold ser_read; cbn [ser_in]; rewrite rx_read_one; reflexivity).
  cbn [falsy]. unfold byte_at at 1, index at 1. cbn [nth_error].
  erewrite bind_ok by (erewrite bind_ok by reflexivity; reflexivity).
  destruct (Byte.to_N b =? START_MARK); [|reflexivity]. cbn [negb].
  unfold bind at 1, ser_read at 1. cbn [ser_in set_ser_in ser_out stdout written].
  destruct (rx_read rx 4) as [hdr r].
  destruct hdr as [|b3 [|b2 [|b1 [|b0 [|x hdr]]]]]; try reflexivity.
  - change (negb (len [b3; b2; b1; b0] =? 4)) with false. cbv iota.
    erewrite bind_ok by reflexivity. apply read_payload_run.
  - rewrite len_not_four. reflexivity.
Qed.

(** [read_frame] on a stream that opens with the start marker and the
    four bytes of a length. *)
Lemma read_frame_header (w : world) (b3 b2 b1 b0 : byte)
      (rest : list rx_event) :
  ser_in w = wire [byte_of_N START_MARK; b3; b2; b1; b0] ++ rest ->
  read_frame w
  = let n := SHA256.be_value (map Byte.to_N [b3; b2; b1; b0]) in
    let (data, r1) := rx_read rest n in
    let (tail, r2) := rx_read r1 1 in
    (Ok (Some data),
     mkWorld r2 (ser_out w)
             (if tail_ok tail then stdout w else stdout w ++ [WARN_BAD_TAIL])
             (written w)).
Proof.
  intros Hin. rewrite read_frame_cases, Hin.
  change (wire [byte_of_N START_MARK; b3; b2; b1; b0] ++ rest)
    with (RxByte (byte_of_N START_MARK) :: (wire [b3; b2; b1; b0] ++ rest)).
  cbv iota.
  change (Byte.to_N (byte_of_N START_MARK) =? START_MARK) with true.
  cbv iota. rewrite rx_read_four. reflexivity.
Qed.

(** [read_frame] returns: it raises nothing, it gives nothing back to the
    port, it takes at least one byte when it returns a frame, and it
    writes neither to the port nor to a file. *)
Lemma read_frame_returns (w : world) :
  exists r w',
    read_frame w = (Ok r, w')
    /\ ser_out w' = ser_out w /\ written w' = written w
    /\ (List.length (ser_in w') <= List.length (ser_in w))%nat
    /\ (r <> None -> (List.length (ser_in w') < List.length (ser_in w))%nat).
Proof.
  rewrite read_frame_cases. destruct (ser_in w) as [|[b|] rx].
  - exists None. eexists. split; [reflexivity|].
    cbn. repeat split; try lia; try congruence.
  - destruct (Byte.to_N b =? START_MARK).
    + pose proof (rx_read_bounds rx 4) as (_ & Hr & _).
      destruct (rx_read rx 4) as [hdr r]. cbn [snd] in Hr.
      assert (exists w', (Ok (@None bytes), set_ser_in w r) = (Ok None, w')
                /\ ser_out w' = ser_out w /\ written w' = written w
                /\ (List.length (ser_in w') <= List.length (RxByte b :: rx))%nat
                /\ (@None bytes <> None ->
                    (List.length (ser_in w') < List.length (RxByte b :: rx))%nat))
        as Hnone.
      { eexists. split; [reflexivity|].
        cbn. repeat split; try lia; try congruence. }
      destruct hdr as [|b3 [|b2 [|b1 [|b0 [|x hdr]]]]];
        try (exists None; exact Hnone).
      set (n := SHA256.be_value _).
      pose proof (rx_read_bounds r n) as (_ & Hr1 & _).
      destruct (rx_read r n) as [data r1]. cbn [snd] in Hr1.
      pose proof (rx_read_bounds r1 1) as (_ & Hr2 & _).
      destruct (rx_read r1 1) as [tail r2]. cbn [snd] in Hr2.
      exists (Some data). eexists. split; [reflexivity|].
      cbn. repeat split; lia.
    + exists None. eexists. split; [reflexivity|].
      cbn. repeat split; try lia; try congruence.
  - exists None. eexists. split; [reflexivity|].
    cbn. repeat split; try lia; try congruence.
Qed.

(** ** The inner loop *)

(** With more fuel than bytes pending, the inner loop returns, with the
    buffer extended at its end. *)
Lemma frame_loop_returns (fuel : nat) :
  forall (c : bytes) (w : world),
    (List.length (ser_in w) < fuel)%nat ->
    exists extra w',
      frame_loop fuel c w = (Ok (c ++ extra), w')
      /\ ser_out w' = ser_out w /\ written w' = written w
      /\ (List.length (ser_in w') <= List.length (ser_in w))%nat.
Proof.
  induction fuel as [|fuel IH]; intros c w Hf; [lia|].
  cbn [frame_loop].
  destruct (read_frame_returns w) as (r & w1 & Hr & Ho & Hw & Hle & Hlt).
  erewrite bind_ok by exact Hr.
  destruct r as [[|b data]|].
  - exists [], w1. rewrite app_nil_r. auto.
  - destruct (IH (c ++ b :: data) w1) as (extra & w2 & H2 & Ho2 & Hw2 & Hl2).
    { assert (Some (b :: data) <> None) as Hne by discriminate.
      specialize (Hlt Hne). lia. }
    exists ((b :: data) ++ extra), w2. rewrite app_assoc.
    repeat split; try congruence. lia.
  - exists [], w1. rewrite app_nil_r. auto.
Qed.

(** The result of the inner loop does not depend on the fuel, once
    there is more of it than bytes pending. *)
Lemma frame_loop_fuel (f1 : nat) :
  forall (f2 : nat) (c : bytes) (w : world),
    (List.length (ser_in w) < f1)%nat -> (List.length (ser_in w) < f2)%nat ->
    frame_loop f1 c w = frame_loop f2 c w.
Proof.
  induction f1 as [|f1 IH]; intros [|f2] c w H1 H2; try lia.
  cbn [frame_loop].
  destruct (read_frame_returns w) as (r & w1 & Hr & _ & _ & Hle & Hlt).
  rewrite !(bind_ok _ _ _ _ _ Hr).
  destruct r as [[|b data]|]; try reflexivity.
  assert (Some (b :: data) <> None) as Hne by discriminate.
  specialize (Hlt Hne). apply IH; lia.
Qed.

(** The inner loop, unfolded once. *)
Lemma stream_frames_unfold (c : bytes) (w : world) :
  stream_frames c w
  = (frame <- read_frame ;;
     match frame with
     | Some ((_ :: _) as data) => stream_frames (c ++ data)
     | _ => ret c
     end) w.
Proof.
  unfold stream_frames at 1. cbn [frame_loop].
  destruct (read_frame_returns w) as (r & w1 & Hr & _ & _ & Hle & Hlt).
  rewrite !(bind_ok _ _ _ _ _ Hr).
  destruct r as [[|b data]|]; try reflexivity.
  assert (Some (b :: data) <> None) as Hne by discriminate.
  specialize (Hlt Hne). unfold stream_frames. apply frame_loop_fuel; lia.
Qed.

(** The inner loop of [main] returns: its bound is never reached and
    nothing is raised. *)
Lemma stream_frames_returns (c : bytes) (w : world) :
  exists extra w',
    stream_frames c w = (Ok (c ++ extra), w')
    /\ ser_out w' = ser_out w /\ written w' = written w
    /\ (List.length (ser_in w') <= List.length (ser_in w))%nat.
Proof. apply frame_loop_returns. lia. Qed.

(** ** The branches of the loop body *)

Lemma split_from_cons (sep s cur : str) (skip : nat) :
  exists piece rest, split_from sep s cur skip = piece :: rest.
Proof.
  revert cur skip. induction s as [|c s IH]; intros cur skip.
  - simpl. eauto.
  - cbn [split_from]. destruct skip as [|k]; [|apply IH].
    destruct (startswith sep (c :: s)); [eauto | apply IH].
Qed.

(** A line that starts with [HASH:] has a second piece, so that
    [line.split("HASH:")[1]] raises nothing. *)
Lemma split_hash (line : str) :
  startswith (lit "HASH:") line = true ->
  nth_error (split (lit "HASH:") line) 1
  = Some (nth 1 (split (lit "HASH:") line) []).
Proof.
  intros H. destruct line as [|c s]; [discriminate|].
  unfold split. cbn [split_from]. rewrite H.
  destruct (split_from_cons (lit "HASH:") s []
              (Nat.pred (List.length (lit "HASH:")))) as (p & r & ->).
  reflexivity.
Qed.

Lemma hash_not_event (line : str) :
  startswith (lit "HASH:") line = true ->
  startswith (lit "EVENT:USB_INSERTED") line = false
  /\ str_eqb line (lit "CHUNK_START") = false.
Proof.
  intros H. destruct line as [|c s]; [discriminate|].
  change (lit "HASH:") with (72 :: lit "ASH:") in H.
  cbn [startswith] in H. apply andb_true_iff in H. destruct H as [Hc _].
  apply N.eqb_eq in Hc. subst c. split; reflexivity.
Qed.

(** The branch of [HASH:], run. *)
Lemma on_hash_run (line : str) (l : locals) (w : world) :
  startswith (lit "HASH:") line = true ->
  on_hash line l w
  = (Ok (mkLocals [] (file_counter l + 1) (Some (announced line))),
     mkWorld (ser_in w)
             (ser_out w ++ verdict_command (ciphertext l) (announced line))
             (stdout w ++ hash_log (ciphertext l) (announced line))
             (written w ++ [(capture_name (file_counter l + 1), ciphertext l)])).
Proof.
  intros H. unfold on_hash, index. rewrite (split_hash line H).
  unfold announced, verdict_command, hash_log.
  destruct w as [rx so out wr].
  cbv beta iota zeta delta [bind ret print ser_write write_file
                            ser_in ser_out stdout written].
  set (expected := strip (nth 1 (split (lit "HASH:") line) [])).
  destruct (str_eqb (sha256_hexdigest (ciphertext l)) expected);
    cbn [negb ser_in ser_out stdout written]; rewrite <- !app_assoc; reflexivity.
Qed.

Lemma handle_line_hash (line : str) (l : locals) :
  startswith (lit "HASH:") line = true ->
  handle_line line l = on_hash line l.
Proof.
  intros H. destruct (hash_not_event line H) as [H1 H2].
  unfold handle_line. rewrite H1, H2, H. reflexivity.
Qed.

(** The branch of [EVENT:USB_INSERTED], run. *)
Lemma handle_line_event (line : str) (l : locals) (w : world) :
  startswith (lit "EVENT:USB_INSERTED") line = true ->
  handle_line line l w
  = (Ok (mkLocals [] (file_counter l) None),
     mkWorld (ser_in w) (ser_out w)
             (stdout w ++ [lit "[STM32] USB Inserted"]) (written w)).
Proof. intros H. unfold handle_line. rewrite H. reflexivity. Qed.

(** Every branch of the loop body returns, and only the branch of
    [HASH:] writes to the port or to a file. *)
Lemma handle_line_effects (line : str) (l : locals) (w : world) :
  exists l' w',
    handle_line line l w = (Ok l', w')
    /\ if startswith (lit "EVENT:USB_INSERTED") line then
         l' = mkLocals [] (file_counter l) None
         /\ ser_out w' = ser_out w /\ written w' = written w
       else if str_eqb line (lit "CHUNK_START") then
         (exists extra, ciphertext l' = ciphertext l ++ extra)
         /\ file_counter l' = file_counter l
         /\ ser_out w' = ser_out w /\ written w' = written w
       else if startswith (lit "HASH:") line then
         l' = mkLocals [] (file_counter l + 1) (Some (announced line))
         /\ ser_out w'
            = ser_out w ++ verdict_command (ciphertext l) (announced line)
         /\ written w'
            = written w ++ [(capture_name (file_counter l + 1), ciphertext l)]
       else
         l' = l /\ ser_out w' = ser_out w /\ written w' = written w.
Proof.
  destruct (startswith (lit "EVENT:USB_INSERTED") line) eqn:E1.
  { rewrite (handle_line_event line l w E1). eauto 6. }
  destruct (str_eqb line (lit "CHUNK_START")) eqn:E2.
  { unfold handle_line. rewrite E1, E2.
    erewrite bind_ok by reflexivity.
    match goal with |- context [bind (stream_frames ?c) _ ?w0] =>
      destruct (stream_frames_returns c w0) as (extra & w1 & Hs & Ho & Hw & _)
    end.
    erewrite bind_ok by exact Hs.
    do 2 eexists. split; [reflexivity|]. cbn [ciphertext file_counter].
    split; [eauto|]. split; [reflexivity|]. split; assumption. }
  destruct (startswith (lit "HASH:") line) eqn:E3.
  { assert (handle_line line l w = on_hash line l w) as ->
        by (unfold handle_line; rewrite E1, E2, E3; reflexivity).
    rewrite (on_hash_run line l w E3). do 2 eexists.
    split; [reflexivity|]. auto. }
  unfold handle_line. rewrite E1, E2, E3.
  repeat match goal with
         | |- context [if ?b then _ else _] => destruct b
         end;
    do 2 eexists; (split; [reflexivity|]); auto.
Qed.

(** ** The hash gate *)

Lemma ALLOW_not_CUT (out : bytes) : out ++ ALLOW <> out ++ CUT.
Proof. intros H. apply app_inv_head in H. discriminate. Qed.

Lemma verdict_allow_iff (out buffer : bytes) (expected : str) :
  out ++ verdict_command buffer expected = out ++ ALLOW
  <-> sha256_hexdigest buffer = expected.
Proof.
  unfold verdict_command.
  destruct (str_eqb (sha256_hexdigest buffer) expected) eqn:E.
  - apply str_eqb_eq in E. tauto.
  - split.
    + intros H. symmetry in H. apply ALLOW_not_CUT in H. contradiction.
    + intros H. apply str_eqb_eq in H. congruence.
Qed.

Lemma verdict_cut_iff (out buffer : bytes) (expected : str) :
  out ++ verdict_command buffer expected = out ++ CUT
  <-> sha256_hexdigest buffer <> expected.
Proof.
  unfold verdict_command.
  destruct (str_eqb (sha256_hexdigest buffer) expected) eqn:E.
  - apply str_eqb_eq in E. split.
    + intros H. apply ALLOW_not_CUT in H. contradiction.
    + intros H. contradiction.
  - split; [|reflexivity]. intros _ H. apply str_eqb_eq in H. congruence.
Qed.

(** C1, as the specification states it, fails: the announced value
    below is the digest of the empty buffer in upper case; it equals the
    computed digest when case is ignored, and the receiver answers
    [CUT]. *)
Lemma hash_gate_ignoring_case_fails :
  let line :=
    lit "HASH:E3B0C44298FC1C149AFBF4C8996FB92427AE41E4649B934CA495991B7852B855" in
  startswith (lit "HASH:") line = true
  /\ lower (sha256_hexdigest (ciphertext initial)) = lower (announced line)
  /\ handle_line line initial (fresh [])
     = (Ok (mkLocals [] 1 (Some (announced line))),
        mkWorld [] CUT (hash_log [] (announced line))
                [(capture_name 1, [])]).
Proof. vm_compute. repeat split. Qed.

(** C1, amended: for every buffer and every line that starts with
    [HASH:], the receiver writes [ALLOW] if and only if the lower-case
    hexadecimal SHA-256 digest of the buffer is equal, character for
    character, to the value announced by the line, and writes [CUT]
    otherwise. *)
Theorem hash_gate (line : str) (l : locals) (w : world) :
  startswith (lit "HASH:") line = true ->
  exists l' w',
    handle_line line l w = (Ok l', w')
    /\ (ser_out w' = ser_out w ++ ALLOW
        <-> sha256_hexdigest (ciphertext l) = announced line)
    /\ (ser_out w' = ser_out w ++ CUT
        <-> sha256_hexdigest (ciphertext l) <> announced line).
Proof.
  intros H. rewrite (handle_line_hash line l H), (on_hash_run line l w H).
  do 2 eexists. split; [reflexivity|]. cbn [ser_out].
  split; [apply verdict_allow_iff | apply verdict_cut_iff].
Qed.

Lemma hash_gate_witness :
  exists l' w',
    handle_line (lit "HASH:e3b0c44298fc1c149afbf4c8996fb92427ae41e4649b934ca495991b7852b855")
                initial (fresh []) = (Ok l', w')
    /\ (ser_out w' = ser_out (fresh []) ++ ALLOW
        <-> sha256_hexdigest (ciphertext initial)
            = announced (lit "HASH:e3b0c44298fc1c149afbf4c8996fb92427ae41e4649b934ca495991b7852b855"))
    /\ (ser_out w' = ser_out (fresh []) ++ CUT
        <-> sha256_hexdigest (ciphertext initial)
            <> announced (lit "HASH:e3b0c44298fc1c149afbf4c8996fb92427ae41e4649b934ca495991b7852b855")).
Proof. apply hash_gate. reflexivity. Defined.

(** C10: a line that starts with [HASH:] and arrives while the buffer is
    empty is answered all the same: [ALLOW] if and only if the value
    announced is the SHA-256 digest of the empty byte string, [CUT]
    otherwise, and an empty capture is written under the next value of
    the counter. *)
Theorem empty_session_verdict (line : str) (l : locals) (w : world) :
  ciphertext l = [] ->
  startswith (lit "HASH:") line = true ->
  exists w',
    handle_line line l w
    = (Ok (mkLocals [] (file_counter l + 1) (Some (announced line))), w')
    /\ (ser_out w' = ser_out w ++ ALLOW <-> announced line = SHA_EMPTY)
    /\ (ser_out w' = ser_out w ++ CUT <-> announced line <> SHA_EMPTY)
    /\ written w' = written w ++ [(capture_name (file_counter l + 1), [])].
Proof.
  intros Hc H. rewrite (handle_line_hash line l H), (on_hash_run line l w H).
  rewrite Hc. eexists. split; [reflexivity|]. cbn [ser_out written].
  pose proof sha256_empty as E.
  split; [|split; [|reflexivity]].
  - rewrite verdict_allow_iff, E. split; congruence.
  - rewrite verdict_cut_iff, E. split; congruence.
Qed.

Lemma empty_session_verdict_witness :
  exists w',
    handle_line (lit "HASH:00") initial (fresh [])
    = (Ok (mkLocals [] (file_counter initial + 1)
                    (Some (announced (lit "HASH:00")))), w')
    /\ (ser_out w' = ser_out (fresh []) ++ ALLOW
        <-> announced (lit "HASH:00") = SHA_EMPTY)
    /\ (ser_out w' = ser_out (fresh []) ++ CUT
        <-> announced (lit "HASH:00") <> SHA_EMPTY)
    /\ written w'
       = written (fresh []) ++ [(capture_name (file_counter initial + 1), [])].
Proof. apply empty_session_verdict; reflexivity. Defined.

(** ** Frames on the wire *)

Lemma wire_app (a b : bytes) : wire (a ++ b) = wire a ++ wire b.
Proof. apply map_app. Qed.

(** [read_frame] on a stream that opens with the head of a frame that
    declares [n] bytes. *)
Lemma read_frame_declared (w : world) (n : N) (rest : list rx_event) :
  n <= 0xFFFFFFFF ->
  ser_in w = wire (frame_header n) ++ rest ->
  read_frame w
  = let (data, r1) := rx_read rest n in
    let (tail, r2) := rx_read r1 1 in
    (Ok (Some data),
     mkWorld r2 (ser_out w)
             (if tail_ok tail then stdout w else stdout w ++ [WARN_BAD_TAIL])
             (written w)).
Proof.
  intros Hn Hin. pose proof (unpack_pack n Hn) as Hv.
  unfold frame_header in Hin. cbn [SHA256.be_bytes map] in Hin, Hv.
  rewrite (read_frame_header w _ _ _ _ rest Hin). cbv zeta.
  cbn [map]. rewrite Hv. reflexivity.
Qed.

Lemma send_frame_run (payload : bytes) (w : world) :
  len payload <= 0xFFFFFFFF ->
  send_frame payload w
  = (Ok tt, mkWorld (ser_in w) (ser_out w ++ frame_bytes payload)
                    (stdout w) (written w)).
Proof.
  intros H. unfold send_frame, struct_pack_I.
  apply N.leb_le in H. rewrite H.
  unfold bind, ret, ser_write. cbn [ser_in ser_out stdout written].
  unfold frame_bytes, frame_header. cbn [app].
  rewrite <- !app_assoc. reflexivity.
Qed.

(** A payload of [2^32] bytes or more cannot be framed: [struct.pack]
    raises, after the start marker was written. *)
Lemma send_frame_too_long (payload : bytes) (w : world) :
  0xFFFFFFFF < len payload ->
  send_frame payload w
  = (Raise StructError,
     mkWorld (ser_in w) (ser_out w ++ [byte_of_N START_MARK])
             (stdout w) (written w)).
Proof.
  intros H. unfold send_frame, struct_pack_I.
  apply N.leb_gt in H. rewrite H. reflexivity.
Qed.

(** The size of a frame on the wire is six bytes more than its payload. *)
Lemma frame_bytes_length (payload : bytes) :
  len (frame_bytes payload) = 6 + len payload.
Proof.
  unfold frame_bytes, frame_header. rewrite !len_app, len_cons.
  unfold len at 1. rewrite length_map, be_bytes_length.
  change (len [byte_of_N END_MARK]) with 1. lia.
Qed.

(** C2: the frame decoder undoes the frame encoder.  For every payload
    that [struct.pack] can give a length to (fewer than [2^32] bytes,
    which covers the sizes 0, 1, 4095, 4096, 4097 and 1 MiB), [send_frame]
    writes the start marker, the length on four bytes, the payload and
    the end marker, and [read_frame] on these bytes, whatever follows
    them, returns exactly the payload and leaves what follows. *)
Theorem frame_roundtrip (payload : bytes) (ws wr : world)
        (rest : list rx_event) :
  len payload <= 0xFFFFFFFF ->
  send_frame payload ws
  = (Ok tt, mkWorld (ser_in ws) (ser_out ws ++ frame_bytes payload)
                    (stdout ws) (written ws))
  /\ read_frame (set_ser_in wr (wire (frame_bytes payload) ++ rest))
     = (Ok (Some payload), set_ser_in wr rest).
Proof.
  intros H. split; [apply send_frame_run; exact H|].
  rewrite (read_frame_declared _ (len payload)
             (wire payload ++ RxByte (byte_of_N END_MARK) :: rest) H).
  - rewrite rx_read_wire, rx_read_one. reflexivity.
  - unfold frame_bytes. cbn [ser_in set_ser_in].
    rewrite !wire_app, <- !app_assoc. reflexivity.
Qed.

Lemma frame_roundtrip_witness :
  send_frame [] (fresh [])
  = (Ok tt, mkWorld (ser_in (fresh [])) (ser_out (fresh []) ++ frame_bytes [])
                    (stdout (fresh [])) (written (fresh [])))
  /\ read_frame (set_ser_in (fresh []) (wire (frame_bytes []) ++ [RxTimeout]))
     = (Ok (Some []), set_ser_in (fresh []) [RxTimeout]).
Proof. apply frame_roundtrip. vm_compute. discriminate. Defined.

(** C3 fails on the code: the frame below declares four bytes of payload
    and two arrive before the line goes silent; [read_frame] returns the
    two bytes as the frame. *)
Lemma read_frame_truncates :
  let rx := wire [xaa; x00; x00; x00; x04; x01; x02] ++ [RxTimeout] in
  SHA256.be_value (map Byte.to_N [x00; x00; x00; x04]) = 4
  /\ read_frame (fresh rx)
     = (Ok (Some [x01; x02]), mkWorld [] [] [WARN_BAD_TAIL] []).
Proof. split; reflexivity. Qed.

(** The payload returned is never longer than the frame declares. *)
Lemma read_frame_at_most_declared (w : world) (b3 b2 b1 b0 : byte)
      (rest : list rx_event) :
  ser_in w = wire [byte_of_N START_MARK; b3; b2; b1; b0] ++ rest ->
  exists data w',
    read_frame w = (Ok (Some data), w')
    /\ len data <= SHA256.be_value (map Byte.to_N [b3; b2; b1; b0]).
Proof.
  intros Hin. rewrite (read_frame_header w _ _ _ _ rest Hin). cbv zeta.
  pose proof (rx_read_bounds rest
                (SHA256.be_value (map Byte.to_N [b3; b2; b1; b0]))) as (H & _).
  destruct (rx_read rest _) as [data r1]. destruct (rx_read r1 1) as [tail r2].
  do 2 eexists. split; [reflexivity | exact H].
Qed.

(** C9: [read_frame] returns on every input: it raises no exception,
    whatever the port delivers.  In particular, when a frame declares
    more bytes than arrive before the line goes silent, it returns the
    bytes that arrived, and writes nothing to the port or to a file. *)
Theorem truncated_frame_safe :
  (forall w : world, exists r w', read_frame w = (Ok r, w'))
  /\ (forall (w : world) (b3 b2 b1 b0 : byte) (d : bytes)
             (after : list rx_event),
         len d < SHA256.be_value (map Byte.to_N [b3; b2; b1; b0]) ->
         cut_short after ->
         ser_in w
         = wire ([byte_of_N START_MARK; b3; b2; b1; b0] ++ d) ++ after ->
         exists w',
           read_frame w = (Ok (Some d), w')
           /\ ser_out w' = ser_out w /\ written w' = written w).
Proof.
  split.
  - intros w. destruct (read_frame_returns w) as (r & w' & H & _). eauto.
  - intros w b3 b2 b1 b0 d after Hd Hc Hin.
    rewrite (read_frame_header w b3 b2 b1 b0 (wire d ++ after)).
    + cbv zeta. rewrite (rx_read_cut d after _ Hd Hc).
      destruct (rx_read (tl after) 1) as [tail r2].
      eexists. split; [reflexivity|]. split; reflexivity.
    + rewrite Hin, wire_app, <- app_assoc. reflexivity.
Qed.

Lemma truncated_frame_safe_witness :
  exists w',
    read_frame (fresh (wire ([byte_of_N START_MARK; x00; x00; x00; x04]
                             ++ [x01; x02]) ++ [RxTimeout]))
    = (Ok (Some [x01; x02]), w')
    /\ ser_out w' = [] /\ written w' = [].
Proof.
  apply (proj2 truncated_frame_safe
               (fresh (wire ([byte_of_N START_MARK; x00; x00; x00; x04]
                             ++ [x01; x02]) ++ [RxTimeout]))
               x00 x00 x00 x04 [x01; x02] [RxTimeout]).
  - reflexivity.
  - exact I.
  - reflexivity.
Defined.

(** ** The end marker *)

Lemma bad_tail_read (after : list rx_event) :
  bad_tail after -> tail_ok (fst (rx_read after 1)) = false.
Proof.
  intros H. rewrite rx_read_one.
  destruct after as [|[t|] r]; cbn [fst tail_ok]; try reflexivity.
  apply N.eqb_neq. exact H.
Qed.

(** [read_frame] on a frame whose end marker is missing or wrong. *)
Lemma read_frame_bad_tail (payload : bytes) (after : list rx_event)
      (w : world) :
  len payload <= 0xFFFFFFFF ->
  bad_tail after ->
  ser_in w = wire (frame_header (len payload) ++ payload) ++ after ->
  read_frame w
  = (Ok (Some payload),
     mkWorld (snd (rx_read after 1)) (ser_out w)
             (stdout w ++ [WARN_BAD_TAIL]) (written w)).
Proof.
  intros Hn Hb Hin.
  rewrite (read_frame_declared w (len payload) (wire payload ++ after) Hn).
  - rewrite rx_read_wire. pose proof (bad_tail_read after Hb) as Ht.
    destruct (rx_read after 1) as [tail r2]. cbn [fst snd] in *.
    rewrite Ht. reflexivity.
  - rewrite Hin, wire_app, <- app_assoc. reflexivity.
Qed.

(** The branch of [CHUNK_START], run. *)
Lemma handle_line_chunk_start (l : locals) (w : world) :
  handle_line (lit "CHUNK_START") l w
  = (c <- stream_frames (ciphertext l) ;;
     ret (mkLocals c (file_counter l) (current_hash_expected l)))
      (mkWorld (ser_in w) (ser_out w)
               (stdout w ++ [lit "[STM32] Beginning file stream..."])
               (written w)).
Proof. reflexivity. Qed.

(** The inner loop, from any buffer, on a frame whose end marker is
    missing or wrong: the payload is appended. *)
Lemma stream_frames_bad_tail (payload : bytes) (after : list rx_event)
      (buffer : bytes) (w : world) :
  len payload <= 0xFFFFFFFF ->
  bad_tail after ->
  ser_in w = wire (frame_header (len payload) ++ payload) ++ after ->
  exists extra w',
    stream_frames buffer w = (Ok (buffer ++ payload ++ extra), w')
    /\ ser_out w' = ser_out w.
Proof.
  intros Hn Hb Hin. rewrite stream_frames_unfold.
  rewrite (bind_ok _ _ _ _ _ (read_frame_bad_tail payload after w Hn Hb Hin)).
  destruct payload as [|b payload].
  - exists []. eexists. rewrite !app_nil_r. split; reflexivity.
  - match goal with |- context [stream_frames ?c ?w0] =>
      destruct (stream_frames_returns c w0) as (extra & w2 & H2 & Ho2 & _)
    end.
    exists extra, w2. rewrite H2, <- app_assoc. split; [reflexivity|].
    exact Ho2.
Qed.

(** C8: a frame whose last byte is missing or is not the end marker is
    decoded all the same.  [read_frame] returns its payload and only
    prints a warning; the loop under [CHUNK_START] appends the payload to
    the buffer, wherever in a burst the frame comes; and the answer to a
    line of [HASH:] that comes next is computed over a buffer that holds
    these bytes. *)
Theorem tail_marker_leniency (payload : bytes) (after : list rx_event)
        (l : locals) (w : world) :
  len payload <= 0xFFFFFFFF ->
  bad_tail after ->
  ser_in w = wire (frame_header (len payload) ++ payload) ++ after ->
  read_frame w
  = (Ok (Some payload),
     mkWorld (snd (rx_read after 1)) (ser_out w)
             (stdout w ++ [WARN_BAD_TAIL]) (written w))
  /\ (forall buffer : bytes,
         exists extra w',
           stream_frames buffer w = (Ok (buffer ++ payload ++ extra), w'))
  /\ exists extra w',
       handle_line (lit "CHUNK_START") l w
       = (Ok (mkLocals (ciphertext l ++ payload ++ extra) (file_counter l)
                       (current_hash_expected l)), w')
       /\ ser_out w' = ser_out w
       /\ forall line : str,
            startswith (lit "HASH:") line = true ->
            exists l'' w'',
              handle_line line
                (mkLocals (ciphertext l ++ payload ++ extra) (file_counter l)
                          (current_hash_expected l)) w'
              = (Ok l'', w'')
              /\ ser_out w''
                 = ser_out w
                   ++ verdict_command (ciphertext l ++ payload ++ extra)
                                      (announced line).
Proof.
  intros Hn Hb Hin. split; [apply read_frame_bad_tail; assumption|]. split.
  { intros buffer.
    destruct (stream_frames_bad_tail payload after buffer w Hn Hb Hin)
      as (extra & w' & H & _).
    eauto. }
  rewrite handle_line_chunk_start.
  match goal with |- context [bind (stream_frames ?c) _ ?w0] =>
    destruct (stream_frames_bad_tail payload after c w0 Hn Hb Hin)
      as (extra & w' & Hs & Ho)
  end.
  exists extra, w'. erewrite bind_ok by exact Hs.
  split; [reflexivity|]. split; [exact Ho|].
  intros line Hl. rewrite (handle_line_hash line _ Hl), on_hash_run by exact Hl.
  do 2 eexists. split; [reflexivity|]. cbn [ser_out ciphertext].
  rewrite Ho. reflexivity.
Qed.

Lemma tail_marker_leniency_witness :
  read_frame (fresh (wire (frame_header (len [x01; x02]) ++ [x01; x02])
                     ++ [RxByte x00]))
  = (Ok (Some [x01; x02]),
     mkWorld (snd (rx_read [RxByte x00] 1)) []
             ([] ++ [WARN_BAD_TAIL]) [])
  /\ (forall buffer : bytes,
         exists extra w',
           stream_frames buffer
             (fresh (wire (frame_header (len [x01; x02]) ++ [x01; x02])
                     ++ [RxByte x00]))
           = (Ok (buffer ++ [x01; x02] ++ extra), w'))
  /\ exists extra w',
       handle_line (lit "CHUNK_START") initial
         (fresh (wire (frame_header (len [x01; x02]) ++ [x01; x02])
                 ++ [RxByte x00]))
       = (Ok (mkLocals ([] ++ [x01; x02] ++ extra) 0 None), w')
       /\ ser_out w' = []
       /\ forall line : str,
            startswith (lit "HASH:") line = true ->
            exists l'' w'',
              handle_line line (mkLocals ([] ++ [x01; x02] ++ extra) 0 None) w'
              = (Ok l'', w'')
              /\ ser_out w''
                 = [] ++ verdict_command ([] ++ [x01; x02] ++ extra)
                                         (announced line).
Proof.
  apply (tail_marker_leniency [x01; x02] [RxByte x00] initial
           (fresh (wire (frame_header (len [x01; x02]) ++ [x01; x02])
                   ++ [RxByte x00]))).
  - vm_compute. discriminate.
  - vm_compute. discriminate.
  - reflexivity.
Defined.

(** ** The polling loop *)

Lemma next_line_run (w : world) :
  exists line w1,
    next_line w = (Ok line, w1)
    /\ ser_out w1 = ser_out w /\ written w1 = written w.
Proof.
  unfold next_line, bind, ser_readline, ret.
  destruct (rx_readline (ser_in w)) as [raw r]. cbn. eauto.
Qed.

Lemma loop_body_run (l : locals) (w : world) (line : str) (w1 : world) :
  next_line w = (Ok line, w1) ->
  loop_body l w
  = match line with
    | [] => (Ok l, w1)
    | _ :: _ => handle_line line l w1
    end.
Proof.
  intros H. unfold loop_body. rewrite (bind_ok _ _ _ _ _ H).
  destruct line; reflexivity.
Qed.

(** An iteration of the polling loop returns. *)
Lemma loop_body_returns (l : locals) (w : world) :
  exists l' w', loop_body l w = (Ok l', w').
Proof.
  destruct (next_line_run w) as (line & w1 & Hn & _).
  rewrite (loop_body_run l w line w1 Hn). destruct line as [|c s]; [eauto|].
  destruct (handle_line_effects (c :: s) l w1) as (l' & w' & H & _). eauto.
Qed.

Lemma iterate_add (a b : nat) (l : locals) (w : world) :
  iterate (a + b) l w = (l' <- iterate a l ;; iterate b l') w.
Proof.
  revert l w. induction a as [|a IH]; intros l w; [reflexivity|].
  cbn [Nat.add iterate].
  destruct (loop_body_returns l w) as (l1 & w1 & H).
  rewrite (bind_ok _ _ _ _ _ H), IH. unfold bind at 2.
  rewrite (bind_ok _ _ _ _ _ H). reflexivity.
Qed.

(** Once the port has nothing more to deliver, the polling loop changes
    nothing. *)
Lemma iterate_idle (n : nat) (l : locals) (w : world) :
  ser_in w = [] -> iterate n l w = (Ok l, w).
Proof.
  intros H. induction n as [|n IH]; [reflexivity|].
  cbn [iterate]. erewrite bind_ok; [exact IH|].
  destruct w as [rx so out wr]. cbn in H. subst rx. reflexivity.
Qed.

(** ** Session isolation and abandonment *)

Lemma empty_buffer_kept (n : nat) :
  forall (l : locals) (w : world),
    ciphertext l = [] ->
    ~ In (lit "CHUNK_START") (lines_read n l w) ->
    exists ln wn, iterate n l w = (Ok ln, wn) /\ ciphertext ln = [].
Proof.
  induction n as [|n IH]; intros l w Hc Hl; [exists l, w; auto|].
  destruct (next_line_run w) as (line & w1 & Hn & _).
  pose proof (loop_body_run l w line w1 Hn) as Hb.
  cbn [lines_read iterate] in *. rewrite Hn in Hl.
  destruct line as [|c s].
  - rewrite Hb in Hl. erewrite bind_ok by exact Hb. apply IH; [exact Hc|].
    intros Hi. apply Hl. right. exact Hi.
  - destruct (handle_line_effects (c :: s) l w1) as (l' & w' & H & Hcase).
    rewrite H in Hb. rewrite Hb in Hl. erewrite bind_ok by exact Hb.
    apply IH; [|intros Hi; apply Hl; right; exact Hi].
    destruct (startswith (lit "EVENT:USB_INSERTED") (c :: s)).
    { destruct Hcase as [-> _]. reflexivity. }
    destruct (str_eqb (c :: s) (lit "CHUNK_START")) eqn:E.
    { apply str_eqb_eq in E. exfalso. apply Hl. left. exact E. }
    destruct (startswith (lit "HASH:") (c :: s)).
    { destruct Hcase as [-> _]. reflexivity. }
    destruct Hcase as [-> _]. exact Hc.
Qed.

(** C5: after every verdict, [ALLOW] or [CUT], the buffer is empty, and
    it is still empty after any number of iterations of the polling loop
    in which no [CHUNK_START] line is read: the buffer is empty when the
    next [CHUNK_START] line is processed. *)
Theorem session_isolation (line : str) (l : locals) (w : world) :
  startswith (lit "HASH:") line = true ->
  exists l1 w1,
    handle_line line l w = (Ok l1, w1)
    /\ ciphertext l1 = []
    /\ forall n : nat,
         ~ In (lit "CHUNK_START") (lines_read n l1 w1) ->
         exists ln wn, iterate n l1 w1 = (Ok ln, wn) /\ ciphertext ln = [].
Proof.
  intros H. rewrite (handle_line_hash line l H), (on_hash_run line l w H).
  do 2 eexists. split; [reflexivity|]. split; [reflexivity|].
  intros n Hn. apply empty_buffer_kept; [reflexivity | exact Hn].
Qed.

Lemma session_isolation_witness :
  exists l1 w1,
    handle_line (lit "HASH:00") (mkLocals [x01; x02] 0 None)
                (fresh (wire (blit "STATUS:COMPLETE" ++ [x0a])))
    = (Ok l1, w1)
    /\ ciphertext l1 = []
    /\ forall n : nat,
         ~ In (lit "CHUNK_START") (lines_read n l1 w1) ->
         exists ln wn, iterate n l1 w1 = (Ok ln, wn) /\ ciphertext ln = [].
Proof. apply session_isolation. reflexivity. Defined.

(** The branch of the insertion event, for a line that the polling loop
    reads: a line that starts with [EVENT:USB_INSERTED] empties the buffer
    whatever it holds, and writes no command and no capture; the state
    that it leaves does not depend on the bytes discarded, so that no
    later verdict does. *)
Theorem abandonment (line : str) (l : locals) (w : world) :
  startswith (lit "EVENT:USB_INSERTED") line = true ->
  exists l' w',
    handle_line line l w = (Ok l', w')
    /\ ciphertext l' = []
    /\ ser_out w' = ser_out w /\ written w' = written w
    /\ forall (discarded : bytes) (h : option str),
         handle_line line (mkLocals discarded (file_counter l) h) w
         = (Ok l', w').
Proof.
  intros H. rewrite (handle_line_event line l w H).
  do 2 eexists. split; [reflexivity|]. repeat split.
  intros discarded h. rewrite (handle_line_event line _ w H). reflexivity.
Qed.

Lemma abandonment_witness :
  exists l' w',
    handle_line (lit "EVENT:USB_INSERTED") (mkLocals [x01; x02] 3 None)
                (fresh []) = (Ok l', w')
    /\ ciphertext l' = []
    /\ ser_out w' = ser_out (fresh []) /\ written w' = written (fresh [])
    /\ forall (discarded : bytes) (h : option str),
         handle_line (lit "EVENT:USB_INSERTED")
                     (mkLocals discarded
                               (file_counter (mkLocals [x01; x02] 3 None)) h)
                     (fresh [])
         = (Ok l', w').
Proof. apply abandonment. reflexivity. Defined.

(** ** Captures *)

Lemma list_ascii_of_string_inj (a b : string) :
  list_ascii_of_string a = list_ascii_of_string b -> a = b.
Proof.
  intros H. rewrite <- (string_of_list_ascii_of_string a),
              <- (string_of_list_ascii_of_string b), H.
  reflexivity.
Qed.

Lemma N_of_ascii_inj (a b : ascii) : N_of_ascii a = N_of_ascii b -> a = b.
Proof.
  intros H. rewrite <- (ascii_N_embedding a), <- (ascii_N_embedding b), H.
  reflexivity.
Qed.

Lemma lit_inj (a b : string) : lit a = lit b -> a = b.
Proof.
  unfold lit. intros H. apply list_ascii_of_string_inj.
  revert H. generalize (list_ascii_of_string a) (list_ascii_of_string b).
  intros x. induction x as [|c x IH]; intros [|d y] H; try discriminate.
  - reflexivity.
  - cbn [map] in H. injection H as Hc Hx.
    apply N_of_ascii_inj in Hc. subst d. f_equal. apply IH. exact Hx.
Qed.

Lemma str_of_int_inj (a b : N) : str_of_int a = str_of_int b -> a = b.
Proof.
  unfold str_of_int. intros H. apply lit_inj in H.
  apply DecimalN.Unsigned.to_uint_inj.
  pose proof (NilEmpty.usu (N.to_uint a)) as Ha.
  pose proof (NilEmpty.usu (N.to_uint b)) as Hb.
  rewrite H in Ha. congruence.
Qed.

(** Two values of the counter never name the same file. *)
Lemma capture_name_inj (a b : N) : capture_name a = capture_name b -> a = b.
Proof.
  unfold capture_name. intros H. apply app_inv_head in H.
  apply app_inv_tail in H. apply str_of_int_inj. exact H.
Qed.

Lemma counters_succ (n : N) : counters (n + 1) = counters n ++ [n + 1].
Proof.
  unfold counters. replace (N.to_nat (n + 1)) with (S (N.to_nat n)) by lia.
  rewrite seq_S, map_app. cbn [map Nat.add]. f_equal. f_equal. lia.
Qed.

Lemma NoDup_map_inj {A B} (f : A -> B) (l : list A) :
  (forall a b, f a = f b -> a = b) -> NoDup l -> NoDup (map f l).
Proof.
  intros Hf Hl. induction Hl as [|x l Hx Hl IH]; cbn [map]; constructor.
  - intros Hin. apply in_map_iff in Hin. destruct Hin as (y & Hy & Hin).
    apply Hf in Hy. subst y. contradiction.
  - exact IH.
Qed.

Lemma counters_NoDup (n : N) : NoDup (map capture_name (counters n)).
Proof.
  unfold counters. rewrite map_map.
  apply NoDup_map_inj; [|apply seq_NoDup].
  intros a b H. apply capture_name_inj in H. lia.
Qed.

Lemma handle_line_numbered (line : str) (l l' : locals) (w w' : world) :
  captures_numbered l w ->
  handle_line line l w = (Ok l', w') ->
  captures_numbered l' w'.
Proof.
  unfold captures_numbered. intros Hi H.
  destruct (handle_line_effects line l w) as (l2 & w2 & H2 & Hcase).
  rewrite H in H2. injection H2 as <- <-.
  destruct (startswith (lit "EVENT:USB_INSERTED") line).
  { destruct Hcase as (-> & _ & ->). exact Hi. }
  destruct (str_eqb line (lit "CHUNK_START")).
  { destruct Hcase as (_ & -> & _ & ->). exact Hi. }
  destruct (startswith (lit "HASH:") line).
  { destruct Hcase as (-> & _ & ->). cbn [file_counter].
    rewrite map_app, counters_succ, map_app, Hi. reflexivity. }
  destruct Hcase as (-> & _ & ->). exact Hi.
Qed.

Lemma iterate_numbered (n : nat) :
  forall (l : locals) (w : world),
    captures_numbered l w ->
    exists l' w', iterate n l w = (Ok l', w') /\ captures_numbered l' w'.
Proof.
  induction n as [|n IH]; intros l w Hi; [exists l, w; auto|].
  cbn [iterate].
  destruct (next_line_run w) as (line & w1 & Hn & _ & Hw).
  pose proof (loop_body_run l w line w1 Hn) as Hb.
  assert (captures_numbered l w1) as Hi1
      by (unfold captures_numbered in *; rewrite Hw; exact Hi).
  destruct line as [|c s].
  - erewrite bind_ok by exact Hb. apply IH. exact Hi1.
  - destruct (handle_line_effects (c :: s) l w1) as (l' & w' & H & _).
    rewrite H in Hb. erewrite bind_ok by exact Hb.
    apply IH. exact (handle_line_numbered _ _ _ _ _ Hi1 H).
Qed.

(** The scenarios, run: the receiver on what the peer sends for a
    payload of sixteen zero bytes. *)
Lemma scenario_run (hash_hex : str) (k : nat) (l : locals) (w : world) :
  iterate 5 initial (fresh (scenario zeros16 hash_hex)) = (Ok l, w) ->
  ser_in w = [] ->
  iterate (5 + k) initial (fresh (scenario zeros16 hash_hex)) = (Ok l, w).
Proof.
  intros H Hin. rewrite iterate_add, (bind_ok _ _ _ _ _ H).
  apply iterate_idle. exact Hin.
Qed.

(** The line that follows the last frame loses its first byte to
    [read_frame], which reads it as a start marker: the [CHUNK_END] of
    the peer reaches the polling loop as [HUNK_END]. *)
Lemma line_after_frames_loses_first_byte :
  lines_read 5 initial (fresh (scenario zeros16 SHA_ZEROS16))
  = [lit "EVENT:USB_INSERTED"; lit "CHUNK_START"; lit "HUNK_END";
     lit "HASH:" ++ SHA_ZEROS16; lit "STATUS:COMPLETE"].
Proof. vm_compute. reflexivity. Qed.

(** C7: every verdict, [ALLOW] or [CUT], comes with a capture of the
    buffer, written to the file named by the counter after it was
    incremented; in every run the files written are those numbered 1, 2,
    ... up to the counter, in this order, so that each capture is a new
    file; and in Scenario A (the digest announced is the right one) as in
    Scenario B (one character of it is changed) the first capture holds
    the sixteen bytes transferred. *)
Theorem capture_persistence :
  (forall (line : str) (l : locals) (w : world),
      startswith (lit "HASH:") line = true ->
      exists l' w',
        handle_line line l w = (Ok l', w')
        /\ (ser_out w' = ser_out w ++ ALLOW \/ ser_out w' = ser_out w ++ CUT)
        /\ file_counter l' = file_counter l + 1
        /\ written w'
           = written w ++ [(capture_name (file_counter l'), ciphertext l)])
  /\ (forall (n : nat) (rx : list rx_event),
         exists l w,
           iterate n initial (fresh rx) = (Ok l, w)
           /\ map fst (written w)
              = map capture_name (counters (file_counter l))
           /\ NoDup (map fst (written w)))
  /\ (forall k : nat,
         exists out : list str,
           iterate (5 + k) initial (fresh (scenario zeros16 SHA_ZEROS16))
           = (Ok (mkLocals [] 1 (Some SHA_ZEROS16)),
              mkWorld [] ALLOW out [(capture_name 1, zeros16)]))
  /\ (forall k : nat,
         exists out : list str,
           iterate (5 + k) initial
                   (fresh (scenario zeros16 SHA_ZEROS16_FLIPPED))
           = (Ok (mkLocals [] 1 (Some SHA_ZEROS16_FLIPPED)),
              mkWorld [] CUT out [(capture_name 1, zeros16)])).
Proof.
  split; [|split; [|split]].
  - intros line l w H.
    rewrite (handle_line_hash line l H), (on_hash_run line l w H).
    do 2 eexists. split; [reflexivity|]. cbn [ser_out written file_counter].
    split; [|split; reflexivity].
    unfold verdict_command. destruct (str_eqb _ _); [left | right]; reflexivity.
  - intros n rx.
    destruct (iterate_numbered n initial (fresh rx)) as (l & w & H & Hi);
      [reflexivity|].
    exists l, w. split; [exact H|]. split; [exact Hi|].
    rewrite Hi. apply counters_NoDup.
  - intros k. eexists. apply scenario_run; [vm_compute|]; reflexivity.
  - intros k. eexists. apply scenario_run; [vm_compute|]; reflexivity.
Qed.

Lemma capture_persistence_witness :
  exists l' w',
    handle_line (lit "HASH:00") (mkLocals zeros16 4 None) (fresh [])
    = (Ok l', w')
    /\ (ser_out w' = ser_out (fresh []) ++ ALLOW
        \/ ser_out w' = ser_out (fresh []) ++ CUT)
    /\ file_counter l' = file_counter (mkLocals zeros16 4 None) + 1
    /\ written w'
       = written (fresh [])
         ++ [(capture_name (file_counter l'),
              ciphertext (mkLocals zeros16 4 None))].
Proof. apply (proj1 capture_persistence). reflexivity. Defined.

(** ** Dispatch *)

Lemma not_hash_effects (line : str) (l : locals) (w : world) :
  startswith (lit "HASH:") line = false ->
  exists l' w',
    handle_line line l w = (Ok l', w')
    /\ ser_out w' = ser_out w /\ written w' = written w.
Proof.
  intros E. destruct (handle_line_effects line l w) as (l' & w' & H & Hcase).
  exists l', w'. split; [exact H|].
  destruct (startswith (lit "EVENT:USB_INSERTED") line); [tauto|].
  destruct (str_eqb line (lit "CHUNK_START")); [tauto|].
  rewrite E in Hcase. tauto.
Qed.

(** C4, as the specification states it, fails: in the session below
    (one insertion event, one frame of sixteen zero bytes, the right
    digest announced) a second line of [HASH:] follows the first with no
    insertion event in between; the receiver answers it too, with [CUT],
    and writes a second, empty capture. *)
Lemma second_dispatch_not_rejected :
  let rx := scenario zeros16 SHA_ZEROS16
            ++ wire (encode (lit "HASH:" ++ SHA_ZEROS16 ++ [LF])) in
  lines_read 6 initial (fresh rx)
  = [lit "EVENT:USB_INSERTED"; lit "CHUNK_START"; lit "HUNK_END";
     lit "HASH:" ++ SHA_ZEROS16; lit "STATUS:COMPLETE";
     lit "HASH:" ++ SHA_ZEROS16]
  /\ exists (l : locals) (w : world),
       iterate 6 initial (fresh rx) = (Ok l, w)
       /\ ser_out w = ALLOW ++ CUT
       /\ written w = [(capture_name 1, zeros16); (capture_name 2, [])].
Proof.
  split; [vm_compute; reflexivity|].
  do 2 eexists. split; [vm_compute; reflexivity|]. split; reflexivity.
Qed.

(** C4, amended: there is one dispatch for each line of [HASH:].  Such a
    line produces exactly one command, [ALLOW] or [CUT], and one capture,
    in whatever state it is received, and no other line produces any.  A
    second line of [HASH:] with no insertion event before it is not
    rejected: it is answered over the buffer that the first verdict left
    empty, with a second command and a second capture. *)
Theorem dispatch_per_announcement :
  (forall (line : str) (l : locals) (w : world),
      exists l' w',
        handle_line line l w = (Ok l', w')
        /\ if startswith (lit "HASH:") line
           then ser_out w'
                = ser_out w ++ verdict_command (ciphertext l) (announced line)
                /\ written w'
                   = written w
                     ++ [(capture_name (file_counter l + 1), ciphertext l)]
           else ser_out w' = ser_out w /\ written w' = written w)
  /\ (forall (line1 line2 : str) (l : locals) (w : world),
         startswith (lit "HASH:") line1 = true ->
         startswith (lit "HASH:") line2 = true ->
         exists l1 w1 l2 w2,
           handle_line line1 l w = (Ok l1, w1)
           /\ handle_line line2 l1 w1 = (Ok l2, w2)
           /\ ser_out w2
              = ser_out w
                ++ verdict_command (ciphertext l) (announced line1)
                ++ verdict_command [] (announced line2)
           /\ written w2
              = written w
                ++ [(capture_name (file_counter l + 1), ciphertext l);
                    (capture_name (file_counter l + 1 + 1), [])]).
Proof.
  split.
  - intros line l w. destruct (startswith (lit "HASH:") line) eqn:E.
    + rewrite (handle_line_hash line l E), (on_hash_run line l w E).
      do 2 eexists. split; [reflexivity|]. split; reflexivity.
    + apply not_hash_effects. exact E.
  - intros line1 line2 l w H1 H2.
    rewrite (handle_line_hash line1 l H1), (on_hash_run line1 l w H1).
    do 2 eexists.
    rewrite (handle_line_hash line2 _ H2), on_hash_run by exact H2.
    do 2 eexists. split; [reflexivity|]. split; [reflexivity|].
    cbn [ser_out written ciphertext file_counter].
    rewrite <- !app_assoc. split; reflexivity.
Qed.

Lemma dispatch_per_announcement_witness :
  exists l1 w1 l2 w2,
    handle_line (lit "HASH:00") (mkLocals zeros16 0 None) (fresh [])
    = (Ok l1, w1)
    /\ handle_line (lit "HASH:11") l1 w1 = (Ok l2, w2)
    /\ ser_out w2
       = ser_out (fresh [])
         ++ verdict_command (ciphertext (mkLocals zeros16 0 None))
                            (announced (lit "HASH:00"))
         ++ verdict_command [] (announced (lit "HASH:11"))
    /\ written w2
       = written (fresh [])
         ++ [(capture_name (file_counter (mkLocals zeros16 0 None) + 1),
              ciphertext (mkLocals zeros16 0 None));
             (capture_name (file_counter (mkLocals zeros16 0 None) + 1 + 1),
              [])].
Proof. apply (proj2 dispatch_per_announcement); reflexivity. Defined.

(** * Further properties *)

(** ** Chunks *)

Lemma pieces_concat (s : nat) :
  forall (m : nat) (l : bytes),
    (List.length l <= s * m)%nat ->
    List.concat (map (fun k => firstn s (skipn (s * k) l)) (seq 0 m)) = l.
Proof.
  induction m as [|m IH]; intros l Hl.
  - destruct l; [reflexivity | simpl in Hl; lia].
  - cbn [seq map List.concat]. rewrite Nat.mul_0_r. cbn [skipn].
    rewrite <- seq_shift, map_map.
    etransitivity; [|apply (firstn_skipn s l)]. f_equal.
    etransitivity; [|apply (IH (skipn s l)); rewrite length_skipn; lia].
    f_equal. apply map_ext. intros k.
    rewrite skipn_skipn. do 2 f_equal. lia.
Qed.

Lemma pieces_carried (s : nat) (l : bytes) (m : nat) :
  (0 < s)%nat -> (s * m < List.length l + s)%nat ->
  Forall (fun p => p <> [] /\ (List.length p <= s)%nat)
         (map (fun k => firstn s (skipn (s * k) l)) (seq 0 m)).
Proof.
  intros Hs Hm. apply Forall_forall. intros p Hp.
  apply in_map_iff in Hp. destruct Hp as (k & <- & Hk).
  apply in_seq in Hk. split.
  - intros E. apply (f_equal (@List.length byte)) in E.
    rewrite length_firstn, length_skipn in E. simpl in E. nia.
  - rewrite length_firstn. lia.
Qed.

Lemma range_step_count (n : N) :
  N.to_nat ((n + 4096 - 1) / 4096) = ((N.to_nat n + 4095) / 4096)%nat.
Proof.
  replace (n + 4096 - 1) with (n + 4095) by lia.
  rewrite N2Nat.inj_div, N2Nat.inj_add. reflexivity.
Qed.

(** The pieces that the peer frames are not empty, hold 4096 bytes at
    most, and make up the payload when put end to end. *)
Lemma chunks_spec (payload : bytes) :
  List.concat (chunks payload) = payload
  /\ Forall (fun p => p <> [] /\ (List.length p <= 4096)%nat) (chunks payload).
Proof.
  assert (chunks payload
          = map (fun k => firstn 4096 (skipn (4096 * k) payload))
                (seq 0 ((List.length payload + 4095) / 4096))) as ->.
  { unfold chunks, range_step. rewrite map_map, range_step_count, len_length.
    apply map_ext. intros k. unfold slice. f_equal.
    - replace (4096 * N.of_nat k + 4096 - 4096 * N.of_nat k) with 4096 by lia.
      reflexivity.
    - f_equal. rewrite N2Nat.inj_mul, Nat2N.id. reflexivity. }
  pose proof (Nat.div_mod_eq (List.length payload + 4095) 4096) as Hd.
  pose proof (Nat.mod_upper_bound (List.length payload + 4095) 4096) as Hm.
  split; [apply pieces_concat | apply pieces_carried]; lia.
Qed.

Lemma chunks_carried (payload : bytes) : Forall carried (chunks payload).
Proof.
  destruct (chunks_spec payload) as [_ H].
  eapply Forall_impl; [|exact H]. intros p [Hp Hl]. split; [exact Hp|].
  unfold len. lia.
Qed.

(** ** The peer *)

Lemma for_each_send_frame {A} (f : A -> bytes) (l : list A) :
  forall w : world,
    Forall (fun i => len (f i) <= 0xFFFFFFFF) l ->
    for_each l (fun i => send_frame (f i)) w
    = (Ok tt,
       mkWorld (ser_in w)
               (ser_out w ++ List.concat (map frame_bytes (map f l)))
               (stdout w) (written w)).
Proof.
  induction l as [|i l IH]; intros w Hl.
  - cbn. rewrite app_nil_r. destruct w; reflexivity.
  - inversion Hl as [|? ? Hi Hl']; subst. cbn [for_each map List.concat].
    rewrite (bind_ok _ _ _ _ _ (send_frame_run (f i) w Hi)), IH by exact Hl'.
    cbn [ser_in ser_out stdout written]. rewrite <- app_assoc. reflexivity.
Qed.

(** What the peer writes for a session. *)
Lemma simulate_run (payload : bytes) (hash_hex : str) (w : world) :
  simulate payload hash_hex w
  = (Ok tt,
     mkWorld (ser_in w) (ser_out w ++ session_bytes payload hash_hex)
             (stdout w
              ++ [lit "[DONE] Fake transfer sent. Waiting for PC response..."])
             (written w)).
Proof.
  unfold simulate.
  do 2 (erewrite bind_ok by reflexivity).
  erewrite bind_ok.
  2:{ apply (for_each_send_frame (fun i => slice payload i (i + 4096))).
      pose proof (chunks_carried payload) as H. unfold chunks in H.
      rewrite Forall_map in H. eapply Forall_impl; [|exact H].
      intros i [_ Hi]. exact Hi. }
  do 3 (erewrite bind_ok by reflexivity).
  unfold print, session_bytes. cbn [ser_in ser_out stdout written].
  fold (chunks payload). rewrite <- !app_assoc. reflexivity.
Qed.

(** ** Hexadecimal digits on the wire *)

Lemma below_forallb (P : N -> bool) (n : nat) :
  forallb P (map N.of_nat (seq 0 n)) = true ->
  forall c : N, c < N.of_nat n -> P c = true.
Proof.
  intros H c Hc. rewrite forallb_forall in H. apply H.
  apply in_map_iff. exists (N.to_nat c). split; [apply N2Nat.id|].
  apply in_seq. lia.
Qed.

Lemma is_hex_below (c : N) : is_hex c = true -> c < 128.
Proof.
  unfold is_hex, is_lower_hex.
  rewrite !orb_true_iff, !andb_true_iff, !N.leb_le. lia.
Qed.

(** A hexadecimal digit is an ASCII character that is neither white
    space, nor a line feed, nor the letter H, and its byte is itself. *)
Lemma is_hex_plain (c : N) :
  is_hex c = true ->
  isspace c = false /\ c <> 72 /\ c < 128
  /\ Byte.to_N (byte_of_N c) = c /\ Byte.eqb (byte_of_N c) x0a = false.
Proof.
  intros H.
  pose proof (below_forallb
                (fun c => implb (is_hex c)
                            (negb (isspace c) && negb (c =? 72)
                             && (Byte.to_N (byte_of_N c) =? c)
                             && negb (Byte.eqb (byte_of_N c) x0a)))
                128 eq_refl c (is_hex_below c H)) as Hall.
  cbv beta in Hall. rewrite H in Hall. cbn [implb] in Hall.
  rewrite !andb_true_iff, !negb_true_iff, N.eqb_eq, N.eqb_neq in Hall.
  pose proof (is_hex_below c H). tauto.
Qed.

Lemma is_lower_hex_is_hex (c : N) : is_lower_hex c = true -> is_hex c = true.
Proof. intros H. unfold is_hex. rewrite H. reflexivity. Qed.

(** ** Lines on the wire *)

Lemma rx_readline_wire (s : bytes) (rest : list rx_event) :
  forallb (fun b => negb (Byte.eqb b x0a)) s = true ->
  rx_readline (wire (s ++ [x0a]) ++ rest) = (s ++ [x0a], rest).
Proof.
  induction s as [|b s IH]; intros H; [reflexivity|].
  cbn [forallb] in H. apply andb_true_iff in H. destruct H as [Hb Hs].
  apply negb_true_iff in Hb.
  cbn [wire map app rx_readline]. rewrite Hb.
  change (map RxByte (s ++ [x0a])) with (wire (s ++ [x0a])).
  rewrite (IH Hs). reflexivity.
Qed.

(** An iteration of the polling loop on a whole line. *)
Lemma loop_body_line (s : bytes) (rest : list rx_event) (line : str)
      (l : locals) (w : world) :
  forallb (fun b => negb (Byte.eqb b x0a)) s = true ->
  strip (decode_ignore (s ++ [x0a])) = line ->
  line <> [] ->
  ser_in w = wire (s ++ [x0a]) ++ rest ->
  loop_body l w = handle_line line l (set_ser_in w rest).
Proof.
  intros Hs Hline Hne Hin. unfold loop_body.
  erewrite bind_ok.
  2:{ unfold next_line. erewrite bind_ok by
        (unfold ser_readline; rewrite Hin, (rx_readline_wire s rest Hs);
         reflexivity).
      rewrite Hline. reflexivity. }
  destruct line; [contradiction | reflexivity].
Qed.

Lemma decode_ascii (s : list N) :
  Forall (fun c => c < 128) s -> decode_N s = s.
Proof.
  induction 1 as [|c s Hc _ IH]; [reflexivity|].
  cbn [decode_N]. apply N.ltb_lt in Hc. rewrite Hc, IH. reflexivity.
Qed.

Lemma lstrip_kept (s : str) :
  match s with
  | [] => True
  | c :: _ => isspace c = false
  end ->
  lstrip s = s.
Proof. destruct s as [|c s]; [reflexivity|]. cbn. intros ->. reflexivity. Qed.

Lemma hex_head (h : str) :
  forallb is_hex h = true ->
  match h with
  | [] => True
  | c :: _ => isspace c = false
  end.
Proof.
  destruct h as [|c h]; [exact (fun _ => I)|]. cbn [forallb].
  intros H. apply andb_true_iff in H. apply (is_hex_plain c). tauto.
Qed.

Lemma forallb_rev {A} (f : A -> bool) (l : list A) :
  forallb f (rev l) = forallb f l.
Proof.
  induction l as [|x l IH]; [reflexivity|].
  cbn [rev forallb]. rewrite forallb_app, IH. cbn. rewrite andb_true_r.
  apply andb_comm.
Qed.

(** A string of hexadecimal digits has nothing for [strip] to take. *)
Lemma strip_hex (h : str) : forallb is_hex h = true -> strip h = h.
Proof.
  intros H. unfold strip, rstrip.
  rewrite (lstrip_kept h (hex_head h H)).
  rewrite lstrip_kept, rev_involutive; [reflexivity|].
  apply hex_head. rewrite forallb_rev. exact H.
Qed.

(** The line of the announcement, as read by the polling loop. *)
Lemma strip_hash_line (h : str) :
  forallb is_hex h = true ->
  strip (lit "HASH:" ++ h ++ [LF]) = lit "HASH:" ++ h.
Proof.
  intros H. unfold strip, rstrip.
  rewrite (lstrip_kept (lit "HASH:" ++ h ++ [LF])) by exact eq_refl.
  rewrite app_assoc, rev_app_distr. cbn [rev app].
  change (lstrip (LF :: rev (lit "HASH:" ++ h)))
    with (lstrip (rev (lit "HASH:" ++ h))).
  rewrite lstrip_kept; [apply rev_involutive|].
  rewrite rev_app_distr.
  pose proof (hex_head (rev h)) as Hh. rewrite forallb_rev in Hh.
  specialize (Hh H). destruct (rev h); [exact eq_refl | exact Hh].
Qed.

Lemma split_from_plain (s cur : str) :
  forallb is_hex s = true ->
  split_from (lit "HASH:") s cur O = [cur ++ s].
Proof.
  revert cur. induction s as [|c s IH]; intros cur H.
  - cbn. rewrite app_nil_r. reflexivity.
  - cbn [forallb] in H. apply andb_true_iff in H. destruct H as [Hc Hs].
    destruct (is_hex_plain c Hc) as (_ & H72 & _).
    cbn [split_from].
    replace (startswith (lit "HASH:") (c :: s)) with false.
    + rewrite (IH _ Hs), <- app_assoc. reflexivity.
    + change (lit "HASH:") with (72 :: lit "ASH:"). cbn [startswith].
      apply N.eqb_neq in H72. rewrite N.eqb_sym, H72. reflexivity.
Qed.

Lemma split_from_skip (sep pre s cur : str) :
  split_from sep (pre ++ s) cur (List.length pre) = split_from sep s cur O.
Proof.
  induction pre as [|c pre IH]; [reflexivity|]. cbn [app List.length split_from].
  exact IH.
Qed.

(** The value that the receiver takes from the line that announces a
    string of hexadecimal digits is this string. *)
Lemma announced_hex (h : str) :
  forallb is_hex h = true -> announced (lit "HASH:" ++ h) = h.
Proof.
  intros H. unfold announced, split.
  change (lit "HASH:" ++ h) with (72 :: (lit "ASH:" ++ h)).
  cbn [split_from].
  change (startswith (lit "HASH:") (72 :: (lit "ASH:" ++ h))) with true.
  cbv iota.
  change (Nat.pred (List.length (lit "HASH:")))
    with (List.length (lit "ASH:")).
  rewrite split_from_skip, (split_from_plain h [] H).
  cbn [nth app]. apply strip_hex. exact H.
Qed.

(** ** Bursts of frames *)

Lemma read_frame_whole (p : bytes) (rest : list rx_event) (w : world) :
  len p <= 0xFFFFFFFF ->
  ser_in w = wire (frame_bytes p) ++ rest ->
  read_frame w = (Ok (Some p), set_ser_in w rest).
Proof.
  intros Hp Hin.
  rewrite (read_frame_declared w (len p)
             (wire p ++ RxByte (byte_of_N END_MARK) :: rest) Hp).
  - rewrite rx_read_wire, rx_read_one. reflexivity.
  - rewrite Hin. unfold frame_bytes. rewrite !wire_app, <- !app_assoc.
    reflexivity.
Qed.

Lemma read_frame_none (after : list rx_event) (w : world) :
  no_frame after -> ser_in w = after ->
  read_frame w = (Ok None, set_ser_in w (tl after)).
Proof.
  intros Hn Hin. rewrite read_frame_cases, Hin.
  destruct after as [|[b|] after]; try reflexivity.
  cbn in Hn. apply N.eqb_neq in Hn. rewrite Hn. reflexivity.
Qed.

Lemma stream_frames_burst (ps : list bytes) :
  forall (buffer : bytes) (w : world) (after : list rx_event),
    Forall carried ps ->
    no_frame after ->
    ser_in w = wire (List.concat (map frame_bytes ps)) ++ after ->
    stream_frames buffer w
    = (Ok (buffer ++ List.concat ps), set_ser_in w (tl after)).
Proof.
  induction ps as [|p ps IH]; intros buffer w after Hps Hn Hin.
  - rewrite stream_frames_unfold.
    rewrite (bind_ok _ _ _ _ _ (read_frame_none after w Hn Hin)).
    cbn. rewrite app_nil_r. reflexivity.
  - inversion Hps as [|? ? [Hne Hp] Hps']; subst.
    cbn [map List.concat] in Hin. rewrite wire_app, <- app_assoc in Hin.
    rewrite stream_frames_unfold.
    rewrite (bind_ok _ _ _ _ _ (read_frame_whole p _ w Hp Hin)).
    destruct p as [|b p]; [contradiction|].
    rewrite (IH _ _ after Hps' Hn) by reflexivity.
    cbn [List.concat]. rewrite <- app_assoc. reflexivity.
Qed.

(** ** A session, received *)

Lemma encode_hash_line (h : str) :
  forallb is_hex h = true ->
  exists s : bytes,
    encode (lit "HASH:" ++ h ++ [LF]) = s ++ [x0a]
    /\ forallb (fun b => negb (Byte.eqb b x0a)) s = true
    /\ strip (decode_ignore (s ++ [x0a])) = lit "HASH:" ++ h.
Proof.
  intros H. exists (encode (lit "HASH:" ++ h)).
  assert (Hplain : Forall (fun c => c < 128 /\ Byte.to_N (byte_of_N c) = c
                                    /\ Byte.eqb (byte_of_N c) x0a = false)
                          (lit "HASH:" ++ h)).
  { apply Forall_app. split.
    - repeat constructor.
    - apply Forall_forall. intros c Hc. rewrite forallb_forall in H.
      destruct (is_hex_plain c (H c Hc)) as (_ & _ & ? & ? & ?). auto. }
  split; [|split].
  - unfold encode. rewrite app_assoc, map_app. reflexivity.
  - unfold encode. rewrite forallb_forall. intros b Hb.
    apply in_map_iff in Hb. destruct Hb as (c & <- & Hc).
    rewrite Forall_forall in Hplain. destruct (Hplain c Hc) as (_ & _ & ->).
    reflexivity.
  - unfold decode_ignore, encode. rewrite map_app, map_map.
    rewrite (map_ext_in _ (fun c => c)), map_id.
    + change (map Byte.to_N [x0a]) with [LF]. rewrite decode_ascii.
      * rewrite <- app_assoc. apply strip_hash_line. exact H.
      * apply Forall_app. split; [|repeat constructor].
        eapply Forall_impl; [|exact Hplain]. intros c Hc. apply Hc.
    + intros c Hc. rewrite Forall_forall in Hplain. apply (Hplain c Hc).
Qed.

(** The polling loop on a session as the peer sends it, from any state
    and whatever follows the session on the wire. *)
Lemma receive_session (payload : bytes) (h : str) (l : locals) (w : world)
      (rest : list rx_event) :
  forallb is_hex h = true ->
  ser_in w = wire (session_bytes payload h) ++ rest ->
  exists out : list str,
    iterate 5 l w
    = (Ok (mkLocals [] (file_counter l + 1) (Some h)),
       mkWorld rest (ser_out w ++ verdict_command payload h) out
               (written w ++ [(capture_name (file_counter l + 1), payload)])).
Proof.
  intros H Hin.
  destruct (encode_hash_line h H) as (s & Hs & Hlf & Hline).
  set (r4 := wire (blit "STATUS:COMPLETE" ++ [x0a]) ++ rest).
  set (r3 := wire (s ++ [x0a]) ++ r4).
  set (r2 := wire (blit "HUNK_END" ++ [x0a]) ++ r3).
  set (r1 := wire (blit "CHUNK_START" ++ [x0a])
             ++ wire (List.concat (map frame_bytes (chunks payload)))
             ++ RxByte "C" :: r2).
  assert (Hin' : ser_in w = wire (blit "EVENT:USB_INSERTED" ++ [x0a]) ++ r1).
  { rewrite Hin. unfold session_bytes, r1, r2, r3, r4. rewrite Hs.
    unfold wire. rewrite !map_app, <- !app_assoc. reflexivity. }
  clear Hin. cbn [iterate].
  (* EVENT:USB_INSERTED *)
  erewrite bind_ok.
  2:{ rewrite (loop_body_line (blit "EVENT:USB_INSERTED") r1
                 (lit "EVENT:USB_INSERTED") l w eq_refl eq_refl)
        by (discriminate || exact Hin').
      apply handle_line_event. reflexivity. }
  (* CHUNK_START and the frames *)
  erewrite bind_ok.
  2:{ erewrite (loop_body_line (blit "CHUNK_START") _ (lit "CHUNK_START")
                  _ _ eq_refl eq_refl); [ | discriminate | reflexivity].
      rewrite handle_line_chunk_start. erewrite bind_ok; [reflexivity|].
      apply (stream_frames_burst (chunks payload) _ _ (RxByte "C" :: r2)).
      - apply chunks_carried.
      - cbn. discriminate.
      - reflexivity. }
  destruct (chunks_spec payload) as [-> _]. cbn [app tl].
  (* CHUNK_END, without its first byte *)
  erewrite bind_ok.
  2:{ erewrite (loop_body_line (blit "HUNK_END") r3 (lit "HUNK_END")
                  _ _ eq_refl eq_refl); [reflexivity | discriminate |].
      reflexivity. }
  (* HASH: *)
  erewrite bind_ok.
  2:{ erewrite (loop_body_line s r4 (lit "HASH:" ++ h) _ _ Hlf Hline);
      [ | discriminate | reflexivity].
      rewrite handle_line_hash by reflexivity. apply on_hash_run. reflexivity. }
  (* STATUS:COMPLETE *)
  erewrite bind_ok.
  2:{ erewrite (loop_body_line (blit "STATUS:COMPLETE") rest
                  (lit "STATUS:COMPLETE") _ _ eq_refl eq_refl);
      [reflexivity | discriminate | reflexivity]. }
  cbn [ret ciphertext file_counter ser_in ser_out stdout written set_ser_in].
  rewrite (announced_hex h H). eexists. reflexivity.
Qed.

(** ** The shape of a digest *)

Lemma round_length (s : list N) (kw : N * N) :
  List.length (SHA256.round s kw) = List.length s.
Proof.
  destruct s as [|a [|b [|c [|d [|e [|f [|g [|h [|i s]]]]]]]]]; reflexivity.
Qed.

Lemma rounds_length (l : list (N * N)) :
  forall s : list N, List.length (fold_left SHA256.round l s) = List.length s.
Proof.
  induction l as [|kw l IH]; intros s; [reflexivity|].
  cbn [fold_left]. rewrite IH. apply round_length.
Qed.

Lemma compress_length (h block : list N) :
  List.length (SHA256.compress h block) = List.length h.
Proof.
  unfold SHA256.compress. rewrite length_map, length_combine, rounds_length.
  apply Nat.min_id.
Qed.

Lemma digest_words_length (msg : list N) :
  List.length (SHA256.digest_words msg) = 8%nat.
Proof.
  unfold SHA256.digest_words.
  generalize (SHA256.blocks (List.length (SHA256.words (SHA256.pad msg)))
                            (SHA256.words (SHA256.pad msg))).
  intros bs. change 8%nat with (List.length SHA256.H0).
  generalize SHA256.H0. induction bs as [|b bs IH]; intros h; [reflexivity|].
  cbn [fold_left]. rewrite IH. apply compress_length.
Qed.

Lemma flat_map_length_const {A B} (f : A -> list B) (k : nat) (l : list A) :
  (forall x, List.length (f x) = k) ->
  List.length (flat_map f l) = (k * List.length l)%nat.
Proof.
  intros Hf. induction l as [|x l IH]; cbn [flat_map List.length]; [lia|].
  rewrite length_app, Hf, IH. lia.
Qed.

(** A hexadecimal digest has 64 characters. *)
Lemma hexdigest_length (data : bytes) :
  List.length (sha256_hexdigest data) = 64%nat.
Proof.
  unfold sha256_hexdigest, SHA256.digest.
  rewrite (flat_map_length_const _ 2) by reflexivity.
  rewrite (flat_map_length_const _ 4) by (intros; apply be_bytes_length).
  rewrite digest_words_length. reflexivity.
Qed.

Lemma digest_bounded (data : bytes) (b : N) :
  In b (SHA256.digest data) -> b < 256.
Proof.
  unfold SHA256.digest. intros H. apply in_flat_map in H.
  destruct H as (x & _ & H). eapply be_bytes_bounded. exact H.
Qed.

(** A hexadecimal digest is made of digits and of the letters a to f in
    lower case. *)
Lemma hexdigest_lower_hex (data : bytes) :
  forallb is_lower_hex (sha256_hexdigest data) = true.
Proof.
  apply forallb_forall. intros c Hc. unfold sha256_hexdigest in Hc.
  apply in_flat_map in Hc. destruct Hc as (b & Hb & Hc).
  apply digest_bounded in Hb.
  pose proof (below_forallb (fun n => is_lower_hex (hex_digit n)) 16 eq_refl)
    as Hd.
  destruct Hc as [<- | [<- | []]]; apply Hd.
  - apply N.Div0.div_lt_upper_bound. exact Hb.
  - apply N.mod_lt. discriminate.
Qed.

Lemma hexdigest_hex (data : bytes) :
  forallb is_hex (sha256_hexdigest data) = true.
Proof.
  pose proof (hexdigest_lower_hex data) as H.
  rewrite forallb_forall in *. intros c Hc.
  apply is_lower_hex_is_hex. auto.
Qed.

(** ** Invariants of the polling loop *)

Lemma next_line_eq (w : world) :
  next_line w
  = (Ok (strip (decode_ignore (fst (rx_readline (ser_in w))))),
     set_ser_in w (snd (rx_readline (ser_in w)))).
Proof.
  unfold next_line, bind, ser_readline, ret.
  destruct (rx_readline (ser_in w)). reflexivity.
Qed.

(** A property of the variables and of the world that every branch of
    the loop body keeps, and that does not depend on what the port
    still has to deliver, holds after any number of iterations; and the
    iterations return. *)
Lemma iterate_invariant (I : locals -> world -> Prop) :
  (forall line l w l' w',
      I l w -> handle_line line l w = (Ok l', w') -> I l' w') ->
  (forall l w rx, I l w -> I l (set_ser_in w rx)) ->
  forall (n : nat) (l : locals) (w : world),
    I l w -> exists l' w', iterate n l w = (Ok l', w') /\ I l' w'.
Proof.
  intros Hstep Hrx. induction n as [|n IH]; intros l w Hi.
  - exists l, w. split; [reflexivity | exact Hi].
  - cbn [iterate].
    pose proof (loop_body_run l w _ _ (next_line_eq w)) as Hb.
    specialize (Hrx l w (snd (rx_readline (ser_in w))) Hi).
    destruct (strip (decode_ignore (fst (rx_readline (ser_in w)))))
      as [|c s].
    + rewrite (bind_ok _ _ _ _ _ Hb). apply IH. exact Hrx.
    + destruct (handle_line_effects
                  (c :: s) l (set_ser_in w (snd (rx_readline (ser_in w)))))
        as (l' & w' & H & _).
      rewrite H in Hb. rewrite (bind_ok _ _ _ _ _ Hb).
      apply IH. exact (Hstep _ _ _ _ _ Hrx H).
Qed.

(** ** Whole sessions *)

Lemma verdict_command_digest (payload : bytes) :
  verdict_command payload (sha256_hexdigest payload) = ALLOW.
Proof. unfold verdict_command. rewrite str_eqb_refl. reflexivity. Qed.

Lemma verdict_command_other (payload : bytes) (h : str) :
  h <> sha256_hexdigest payload -> verdict_command payload h = CUT.
Proof.
  intros H. unfold verdict_command.
  destruct (str_eqb (sha256_hexdigest payload) h) eqn:E; [|reflexivity].
  apply str_eqb_eq in E. congruence.
Qed.

Lemma sender_main_sends (payload : bytes) :
  ser_out (snd (sender_main payload (fresh [])))
  = session_bytes payload (sha256_hexdigest payload).
Proof. unfold sender_main. rewrite simulate_run. reflexivity. Qed.

(** The polling loop on a session and nothing after it. *)
Lemma receive_session_alone (payload : bytes) (h : str) (k : nat) :
  forallb is_hex h = true ->
  exists out : list str,
    iterate (5 + k) initial (fresh (wire (session_bytes payload h)))
    = (Ok (mkLocals [] 1 (Some h)),
       mkWorld [] (verdict_command payload h) out
               [(capture_name 1, payload)]).
Proof.
  intros H.
  destruct (receive_session payload h initial
              (fresh (wire (session_bytes payload h))) [] H)
    as (out & Hrun); [cbn; rewrite app_nil_r; reflexivity|].
  exists out. rewrite iterate_add, (bind_ok _ _ _ _ _ Hrun).
  apply iterate_idle. reflexivity.
Qed.

(** X1: an honest transfer is allowed.  For every payload, the receiver
    that is sent what [main] of the peer writes for it (insertion event,
    chunk start, the payload in frames of 4096 bytes at most, chunk end,
    the digest, completion) answers [ALLOW] and nothing else, writes one
    file, [received_1.bin], which holds exactly the payload, and is left
    with an empty buffer. *)
Theorem honest_transfer_allowed (payload : bytes) (k : nat) :
  exists out : list str,
    iterate (5 + k) initial
            (fresh (wire (ser_out (snd (sender_main payload (fresh []))))))
    = (Ok (mkLocals [] 1 (Some (sha256_hexdigest payload))),
       mkWorld [] ALLOW out [(capture_name 1, payload)]).
Proof.
  rewrite sender_main_sends.
  destruct (receive_session_alone payload (sha256_hexdigest payload) k
              (hexdigest_hex payload)) as (out & H).
  exists out. rewrite H, verdict_command_digest. reflexivity.
Qed.

(** X2: a tampered announcement is cut.  For every payload and every
    string of hexadecimal digits other than the digest of the payload,
    the receiver that is sent the session of the peer with this string
    announced answers [CUT] and nothing else, and still writes the
    payload to [received_1.bin]. *)
Theorem tampered_transfer_cut (payload : bytes) (h : str) (k : nat) :
  forallb is_hex h = true ->
  h <> sha256_hexdigest payload ->
  exists out : list str,
    iterate (5 + k) initial (fresh (scenario payload h))
    = (Ok (mkLocals [] 1 (Some h)),
       mkWorld [] CUT out [(capture_name 1, payload)]).
Proof.
  intros H Hne. unfold scenario. rewrite simulate_run. cbn [snd ser_out fresh app].
  destruct (receive_session_alone payload h k H) as (out & Hrun).
  exists out. rewrite Hrun, (verdict_command_other payload h Hne). reflexivity.
Qed.

Lemma tampered_transfer_cut_witness :
  exists out : list str,
    iterate (5 + 0) initial (fresh (scenario [x01; x02] (lit "00ff")))
    = (Ok (mkLocals [] 1 (Some (lit "00ff"))),
       mkWorld [] CUT out [(capture_name 1, [x01; x02])]).
Proof.
  apply tampered_transfer_cut; [reflexivity|].
  vm_compute. discriminate.
Defined.

(** X3: sessions that follow each other do not mix.  For two sessions
    of the peer received one after the other, from any state, the first
    answer is computed over the first payload and the second over the
    second payload alone, and the two payloads go to two files numbered
    in sequence. *)
Theorem sessions_back_to_back (p1 p2 : bytes) (h1 h2 : str) (l : locals)
        (w : world) (rest : list rx_event) :
  forallb is_hex h1 = true ->
  forallb is_hex h2 = true ->
  ser_in w = wire (session_bytes p1 h1 ++ session_bytes p2 h2) ++ rest ->
  exists out : list str,
    iterate 10 l w
    = (Ok (mkLocals [] (file_counter l + 2) (Some h2)),
       mkWorld rest
               (ser_out w ++ verdict_command p1 h1 ++ verdict_command p2 h2)
               out
               (written w ++ [(capture_name (file_counter l + 1), p1);
                              (capture_name (file_counter l + 2), p2)])).
Proof.
  intros H1 H2 Hin.
  destruct (receive_session p1 h1 l w (wire (session_bytes p2 h2) ++ rest) H1)
    as (out1 & Hr1); [rewrite Hin, wire_app, <- app_assoc; reflexivity|].
  change 10%nat with (5 + 5)%nat.
  rewrite iterate_add, (bind_ok _ _ _ _ _ Hr1).
  match goal with |- context [iterate 5 ?l1 ?w1] =>
    destruct (receive_session p2 h2 l1 w1 rest H2) as (out2 & Hr2);
      [reflexivity|]
  end.
  exists out2. rewrite Hr2. cbn [file_counter ser_out written].
  replace (file_counter l + 1 + 1) with (file_counter l + 2) by lia.
  rewrite <- !app_assoc. reflexivity.
Qed.

Lemma sessions_back_to_back_witness :
  exists out : list str,
    iterate 10 initial
            (fresh (wire (session_bytes [x01] (lit "00")
                          ++ session_bytes [x02] (lit "11")) ++ []))
    = (Ok (mkLocals [] (file_counter initial + 2) (Some (lit "11"))),
       mkWorld []
               (ser_out (fresh (wire (session_bytes [x01] (lit "00")
                                      ++ session_bytes [x02] (lit "11")) ++ []))
                ++ verdict_command [x01] (lit "00")
                ++ verdict_command [x02] (lit "11"))
               out
               (written (fresh (wire (session_bytes [x01] (lit "00")
                                      ++ session_bytes [x02] (lit "11")) ++ []))
                ++ [(capture_name (file_counter initial + 1), [x01]);
                    (capture_name (file_counter initial + 2), [x02])])).
Proof. apply sessions_back_to_back; reflexivity. Defined.

(** ** Frames, one by one and in bursts *)

(** X4: reassembly is concatenation in the order of arrival.  Under
    [CHUNK_START], a burst of frames with non-empty payloads, ended by a
    silence, by the end of the data or by a byte that is not the start
    marker, leaves the buffer extended by the payloads in order; nothing
    is written to the port or to a file, and what ended the burst (the
    silence or the byte) is taken from the port. *)
Theorem burst_reassembled (ps : list bytes) (after : list rx_event)
        (l : locals) (w : world) :
  Forall carried ps ->
  no_frame after ->
  ser_in w = wire (List.concat (map frame_bytes ps)) ++ after ->
  handle_line (lit "CHUNK_START") l w
  = (Ok (mkLocals (ciphertext l ++ List.concat ps) (file_counter l)
                  (current_hash_expected l)),
     mkWorld (tl after) (ser_out w)
             (stdout w ++ [lit "[STM32] Beginning file stream..."])
             (written w)).
Proof.
  intros Hps Hn Hin. rewrite handle_line_chunk_start.
  erewrite bind_ok
    by (apply (stream_frames_burst ps _ _ after Hps Hn); exact Hin).
  reflexivity.
Qed.

Lemma burst_reassembled_witness :
  handle_line (lit "CHUNK_START") (mkLocals [x00] 0 None)
    (fresh (wire (List.concat (map frame_bytes [[x01]; [x02; x03]]))
            ++ [RxByte x43; RxByte x0a]))
  = (Ok (mkLocals ([x00] ++ List.concat [[x01]; [x02; x03]]) 0 None),
     mkWorld (tl [RxByte x43; RxByte x0a]) []
             ([] ++ [lit "[STM32] Beginning file stream..."]) []).
Proof.
  apply (burst_reassembled [[x01]; [x02; x03]] [RxByte x43; RxByte x0a]
           (mkLocals [x00] 0 None)).
  - repeat constructor; try discriminate; vm_compute; discriminate.
  - vm_compute. discriminate.
  - reflexivity.
Defined.

(** X5: an empty frame ends the burst.  A well-formed frame with no
    payload makes the loop under [CHUNK_START] stop ([if frame:] is false
    for [b'']): the buffer is unchanged and whatever follows the empty
    frame, further frames included, is left on the port for the line
    reader. *)
Theorem empty_frame_ends_burst (l : locals) (w : world)
        (rest : list rx_event) :
  handle_line (lit "CHUNK_START") l
              (set_ser_in w (wire (frame_bytes []) ++ rest))
  = (Ok l,
     mkWorld rest (ser_out w)
             (stdout w ++ [lit "[STM32] Beginning file stream..."])
             (written w)).
Proof.
  rewrite handle_line_chunk_start.
  erewrite bind_ok.
  2:{ rewrite stream_frames_unfold.
      erewrite bind_ok
        by (apply (read_frame_whole [] rest);
            [vm_compute; discriminate | reflexivity]).
      reflexivity. }
  destruct l; reflexivity.
Qed.

(** X6: what a failed [read_frame] has read is lost.  A first byte that
    is not the start marker is taken from the port and [None] is
    returned; and when fewer than four bytes of length arrive before the
    line goes silent, the marker and these bytes are taken and [None] is
    returned. *)
Theorem failed_read_consumes (w : world) :
  (forall (b : byte) (rest : list rx_event),
      Byte.to_N b <> START_MARK ->
      ser_in w = RxByte b :: rest ->
      read_frame w = (Ok None, set_ser_in w rest))
  /\ (forall (h : bytes) (after : list rx_event),
         len h < 4 ->
         cut_short after ->
         ser_in w = wire (byte_of_N START_MARK :: h) ++ after ->
         read_frame w = (Ok None, set_ser_in w (tl after))).
Proof.
  split.
  - intros b rest Hb Hin. rewrite read_frame_cases, Hin.
    apply N.eqb_neq in Hb. rewrite Hb. reflexivity.
  - intros h after Hh Hc Hin. rewrite read_frame_cases, Hin.
    change (wire (byte_of_N START_MARK :: h) ++ after)
      with (RxByte (byte_of_N START_MARK) :: (wire h ++ after)).
    cbv iota.
    change (Byte.to_N (byte_of_N START_MARK) =? START_MARK) with true.
    cbv iota. rewrite (rx_read_cut h after 4 Hh Hc).
    destruct h as [|b3 [|b2 [|b1 [|b0 h]]]]; try reflexivity.
    rewrite !len_cons in Hh. lia.
Qed.

Lemma failed_read_consumes_witness :
  read_frame (fresh (wire (byte_of_N START_MARK :: [x00; x00]) ++ [RxTimeout]))
  = (Ok None,
     set_ser_in (fresh (wire (byte_of_N START_MARK :: [x00; x00])
                        ++ [RxTimeout]))
                (tl [RxTimeout])).
Proof.
  apply (proj2 (failed_read_consumes
                  (fresh (wire (byte_of_N START_MARK :: [x00; x00])
                          ++ [RxTimeout])))
               [x00; x00] [RxTimeout]).
  - reflexivity.
  - exact I.
  - reflexivity.
Defined.

(** X7: the size of a frame on the wire.  For a payload of fewer than
    [2^32] bytes, [send_frame] writes six bytes more than the payload:
    the start marker first, the end marker last. *)
Theorem frame_size_on_wire (payload : bytes) (w : world) :
  len payload <= 0xFFFFFFFF ->
  exists frame : bytes,
    send_frame payload w
    = (Ok tt, mkWorld (ser_in w) (ser_out w ++ frame) (stdout w) (written w))
    /\ len frame = 6 + len payload
    /\ hd_error frame = Some xaa
    /\ last frame x00 = x55.
Proof.
  intros H. exists (frame_bytes payload).
  split; [apply send_frame_run; exact H|].
  split; [apply frame_bytes_length|]. split; [reflexivity|].
  unfold frame_bytes. rewrite app_assoc. apply last_last.
Qed.

Lemma frame_size_on_wire_witness :
  exists frame : bytes,
    send_frame [x01; x02; x03] (fresh [])
    = (Ok tt, mkWorld (ser_in (fresh [])) (ser_out (fresh []) ++ frame)
                      (stdout (fresh [])) (written (fresh [])))
    /\ len frame = 6 + len [x01; x02; x03]
    /\ hd_error frame = Some xaa
    /\ last frame x00 = x55.
Proof. apply frame_size_on_wire. vm_compute. discriminate. Defined.

(** X8: a payload of [2^32] bytes or more is not framed.  [struct.pack]
    raises [struct.error] for its length, after the start marker was
    written: a lone start marker is left on the wire. *)
Theorem oversized_payload_not_framed (payload : bytes) (w : world) :
  0xFFFFFFFF < len payload ->
  send_frame payload w
  = (Raise StructError,
     mkWorld (ser_in w) (ser_out w ++ [xaa]) (stdout w) (written w)).
Proof.
  intros H. unfold send_frame, struct_pack_I.
  apply N.leb_gt in H. rewrite H. reflexivity.
Qed.

Lemma oversized_payload_not_framed_witness :
  send_frame (repeat x00 (N.to_nat 0x100000000)) (fresh [])
  = (Raise StructError,
     mkWorld (ser_in (fresh [])) (ser_out (fresh []) ++ [xaa])
             (stdout (fresh [])) (written (fresh []))).
Proof.
  apply oversized_payload_not_framed.
  unfold len. rewrite repeat_length, N2Nat.id. reflexivity.
Defined.

Lemma rx_read_prefix (rx : list rx_event) :
  forall n : N, exists r : list rx_event,
    rx = wire (fst (rx_read rx n)) ++ r.
Proof.
  induction rx as [|[b|] rx IH]; intros n.
  - exists []. cbn. destruct (n =? 0); reflexivity.
  - destruct (N.eq_dec n 0) as [->|Hn].
    + rewrite rx_read_0. eexists. reflexivity.
    + rewrite rx_read_byte by exact Hn. cbn [fst wire map app].
      destruct (IH (n - 1)) as (r & Hr). exists r.
      f_equal. exact Hr.
  - eexists. cbn. destruct (n =? 0); reflexivity.
Qed.

(** X9: the payload of a frame is what the port held.  After a start
    marker and four bytes of length, [read_frame] returns a frame whose
    payload is the first bytes pending after the length: never more of
    them than the length declares, and with no byte changed or
    reordered. *)
Theorem payload_within_declared (w : world) (b3 b2 b1 b0 : byte)
        (rest : list rx_event) :
  ser_in w = wire [byte_of_N START_MARK; b3; b2; b1; b0] ++ rest ->
  exists (data : bytes) (w' : world) (rest' : list rx_event),
    read_frame w = (Ok (Some data), w')
    /\ len data <= SHA256.be_value (map Byte.to_N [b3; b2; b1; b0])
    /\ rest = wire data ++ rest'.
Proof.
  intros Hin. rewrite (read_frame_header w _ _ _ _ rest Hin). cbv zeta.
  set (n := SHA256.be_value _).
  pose proof (rx_read_bounds rest n) as (Hle & _).
  destruct (rx_read_prefix rest n) as (rest' & Hpre).
  destruct (rx_read rest n) as [data r1]. destruct (rx_read r1 1) as [tail r2].
  exists data. eexists. exists rest'.
  split; [reflexivity|]. split; [exact Hle | exact Hpre].
Qed.

Lemma payload_within_declared_witness :
  exists (data : bytes) (w' : world) (rest' : list rx_event),
    read_frame (fresh (wire [byte_of_N START_MARK; x00; x00; x00; x02]
                       ++ wire [x07; x08; x55]))
    = (Ok (Some data), w')
    /\ len data <= SHA256.be_value (map Byte.to_N [x00; x00; x00; x02])
    /\ wire [x07; x08; x55] = wire data ++ rest'.
Proof. apply payload_within_declared. reflexivity. Defined.

(** ** The state machine *)

Lemma other_line_run (line : str) (l : locals) (w : world) :
  startswith (lit "EVENT:USB_INSERTED") line = false ->
  str_eqb line (lit "CHUNK_START") = false ->
  startswith (lit "HASH:") line = false ->
  exists out' : list str,
    handle_line line l w
    = (Ok l, mkWorld (ser_in w) (ser_out w) out' (written w))
    /\ (out' = stdout w \/ exists m, out' = stdout w ++ [m]).
Proof.
  intros E1 E2 E3. unfold handle_line. rewrite E1, E2, E3.
  repeat match goal with
         | |- context [if ?b then _ else _] => destruct b
         end;
    try (eexists; split; [reflexivity|]; right; eexists; reflexivity).
  exists (stdout w). split; [destruct w; reflexivity | left; reflexivity].
Qed.

(** X10: lines that are only logged.  A line that is neither an
    insertion event, nor [CHUNK_START], nor an announcement (a relay
    acknowledgement, the completion marker, a line with [ERROR] in it,
    or any other line) leaves the buffer, the counter and the port as
    they are and writes no file; at most one line is printed. *)
Theorem log_only_lines (line : str) (l : locals) (w : world) :
  startswith (lit "EVENT:USB_INSERTED") line = false ->
  str_eqb line (lit "CHUNK_START") = false ->
  startswith (lit "HASH:") line = false ->
  exists out' : list str,
    handle_line line l w
    = (Ok l, mkWorld (ser_in w) (ser_out w) out' (written w))
    /\ (out' = stdout w \/ exists m, out' = stdout w ++ [m]).
Proof. apply other_line_run. Qed.

Lemma log_only_lines_witness :
  exists out' : list str,
    handle_line (lit "FATAL ERROR 7") (mkLocals [x01] 2 None) (fresh [RxTimeout])
    = (Ok (mkLocals [x01] 2 None),
       mkWorld (ser_in (fresh [RxTimeout])) (ser_out (fresh [RxTimeout])) out'
               (written (fresh [RxTimeout])))
    /\ (out' = stdout (fresh [RxTimeout])
        \/ exists m, out' = stdout (fresh [RxTimeout]) ++ [m]).
Proof. apply log_only_lines; reflexivity. Defined.

(** X11: streaming only appends.  Whatever the port delivers after
    [CHUNK_START], garbage included, the loop of frames returns; what the
    buffer held is kept at its head, the counter and the remembered hash
    are unchanged, nothing is written to the port or to a file, and
    nothing is given back to the port. *)
Theorem streaming_only_appends (l : locals) (w : world) :
  exists (extra : bytes) (w' : world),
    handle_line (lit "CHUNK_START") l w
    = (Ok (mkLocals (ciphertext l ++ extra) (file_counter l)
                    (current_hash_expected l)), w')
    /\ ser_out w' = ser_out w /\ written w' = written w
    /\ (List.length (ser_in w') <= List.length (ser_in w))%nat.
Proof.
  rewrite handle_line_chunk_start.
  match goal with |- context [bind (stream_frames ?c) _ ?w0] =>
    destruct (stream_frames_returns c w0) as (extra & w' & Hs & Ho & Hw & Hl)
  end.
  exists extra, w'. rewrite (bind_ok _ _ _ _ _ Hs).
  split; [reflexivity|]. auto.
Qed.

Lemma accounted_step (line : str) (l l' : locals) (w w' : world) :
  accounted l w -> handle_line line l w = (Ok l', w') -> accounted l' w'.
Proof.
  intros (cmds & Ho & Hc & Hn & Hw) H.
  destruct (handle_line_effects line l w) as (l2 & w2 & H2 & Hcase).
  rewrite H in H2. injection H2 as <- <-.
  unfold accounted.
  destruct (startswith (lit "EVENT:USB_INSERTED") line).
  { destruct Hcase as (-> & Eo & Ew). exists cmds. rewrite Eo, Ew. auto. }
  destruct (str_eqb line (lit "CHUNK_START")).
  { destruct Hcase as (_ & Ef & Eo & Ew). exists cmds.
    rewrite Eo, Ew, Ef. auto. }
  destruct (startswith (lit "HASH:") line).
  { destruct Hcase as (-> & Eo & Ew). rewrite Eo, Ew.
    exists (cmds ++ [verdict_command (ciphertext l) (announced line)]).
    cbn [file_counter]. rewrite concat_app, Ho. cbn [List.concat].
    rewrite app_nil_r, !length_app. cbn [List.length].
    repeat split; try lia.
    apply Forall_app. split; [exact Hc|]. constructor; [|constructor].
    unfold verdict_command. destruct (str_eqb _ _); auto. }
  destruct Hcase as (-> & Eo & Ew). exists cmds. rewrite Eo, Ew. auto.
Qed.

(** X12: commands and captures are counted together.  In every run of
    [main], whatever the port delivers, what was written to the port is
    a sequence of [ALLOW] and [CUT] commands and nothing else, there are
    as many of them as files written, and [file_counter] is this
    number. *)
Theorem commands_match_captures (n : nat) (rx : list rx_event) :
  exists (l : locals) (w : world) (cmds : list bytes),
    iterate n initial (fresh rx) = (Ok l, w)
    /\ ser_out w = List.concat cmds
    /\ commands cmds
    /\ List.length cmds = N.to_nat (file_counter l)
    /\ List.length (written w) = N.to_nat (file_counter l).
Proof.
  destruct (iterate_invariant accounted
              (fun line l w l' w' => accounted_step line l l' w w')
              (fun l w rx H => H) n initial (fresh rx))
    as (l & w & H & cmds & Hacc).
  - exists []. repeat split. constructor.
  - exists l, w, cmds. auto.
Qed.

Lemma handle_line_expected (line : str) (l l' : locals) (h : option str)
      (w w' : world) :
  handle_line line l w = (Ok l', w') ->
  exists h', handle_line line (with_expected l h) w
             = (Ok (with_expected l' h'), w').
Proof.
  intros H.
  destruct (startswith (lit "EVENT:USB_INSERTED") line) eqn:E1.
  { rewrite (handle_line_event line l w E1) in H.
    rewrite (handle_line_event line _ w E1). injection H as <- <-.
    exists None. reflexivity. }
  destruct (str_eqb line (lit "CHUNK_START")) eqn:E2.
  { apply str_eqb_eq in E2. subst line.
    rewrite handle_line_chunk_start in H. rewrite handle_line_chunk_start.
    cbn [with_expected ciphertext file_counter current_hash_expected].
    match type of H with context [bind (stream_frames ?c) _ ?w0] =>
      destruct (stream_frames_returns c w0) as (extra & w1 & Hs & _)
    end.
    rewrite (bind_ok _ _ _ _ _ Hs) in H. rewrite (bind_ok _ _ _ _ _ Hs).
    injection H as <- <-. exists h. reflexivity. }
  destruct (startswith (lit "HASH:") line) eqn:E3.
  { rewrite (handle_line_hash line l E3), (on_hash_run line l w E3) in H.
    rewrite (handle_line_hash line _ E3), (on_hash_run line _ w E3).
    injection H as <- <-. eexists. reflexivity. }
  exists h. revert H. unfold handle_line. rewrite E1, E2, E3.
  repeat match goal with
         | |- context [if ?b then _ else _] => destruct b
         end; intros H; injection H as <- <-; reflexivity.
Qed.

(** X13: the hash remembered is never read.  Running the polling loop
    from a state that differs only in [current_hash_expected] gives the
    same port output, the same prints and files, and the same buffer and
    counter: an announcement from an earlier session has no part in a
    later verdict. *)
Theorem expected_hash_never_read (n : nat) :
  forall (l : locals) (h : option str) (w : world),
    exists (l' : locals) (w' : world) (h' : option str),
      iterate n l w = (Ok l', w')
      /\ iterate n (with_expected l h) w = (Ok (with_expected l' h'), w').
Proof.
  induction n as [|n IH]; intros l h w.
  - exists l, w, h. split; reflexivity.
  - cbn [iterate].
    pose proof (loop_body_run l w _ _ (next_line_eq w)) as Hb.
    pose proof (loop_body_run (with_expected l h) w _ _ (next_line_eq w))
      as Hb'.
    destruct (strip (decode_ignore (fst (rx_readline (ser_in w)))))
      as [|c s].
    + rewrite (bind_ok _ _ _ _ _ Hb), (bind_ok _ _ _ _ _ Hb'). apply IH.
    + destruct (handle_line_effects
                  (c :: s) l (set_ser_in w (snd (rx_readline (ser_in w)))))
        as (l1 & w1 & H1 & _).
      destruct (handle_line_expected _ _ _ h _ _ H1) as (h1 & H1').
      rewrite H1 in Hb. rewrite H1' in Hb'.
      rewrite (bind_ok _ _ _ _ _ Hb), (bind_ok _ _ _ _ _ Hb'). apply IH.
Qed.

(** X14: [ALLOW] takes a digest.  When the receiver answers [ALLOW] to
    a line that starts with [HASH:], the value it took from the line has
    exactly 64 characters, all of them digits or letters a to f in lower
    case; any other value is answered [CUT]. *)
Theorem allow_needs_digest_shape (line : str) (l : locals) (w : world) :
  startswith (lit "HASH:") line = true ->
  exists (l' : locals) (w' : world),
    handle_line line l w = (Ok l', w')
    /\ (ser_out w' = ser_out w ++ ALLOW ->
        List.length (announced line) = 64%nat
        /\ forallb is_lower_hex (announced line) = true)
    /\ (~ (List.length (announced line) = 64%nat
           /\ forallb is_lower_hex (announced line) = true) ->
        ser_out w' = ser_out w ++ CUT).
Proof.
  intros H.
  rewrite (handle_line_hash line l H), (on_hash_run line l w H).
  do 2 eexists. split; [reflexivity|]. cbn [ser_out].
  assert (Hshape : sha256_hexdigest (ciphertext l) = announced line ->
                   List.length (announced line) = 64%nat
                   /\ forallb is_lower_hex (announced line) = true).
  { intros <-. split; [apply hexdigest_length | apply hexdigest_lower_hex]. }
  split.
  - intros Hout. apply verdict_allow_iff in Hout. auto.
  - intros Hno. apply verdict_cut_iff. intros E. apply Hno. auto.
Qed.

Lemma allow_needs_digest_shape_witness :
  exists (l' : locals) (w' : world),
    handle_line (lit "HASH:E3B0") initial (fresh []) = (Ok l', w')
    /\ (ser_out w' = ser_out (fresh []) ++ ALLOW ->
        List.length (announced (lit "HASH:E3B0")) = 64%nat
        /\ forallb is_lower_hex (announced (lit "HASH:E3B0")) = true)
    /\ (~ (List.length (announced (lit "HASH:E3B0")) = 64%nat
           /\ forallb is_lower_hex (announced (lit "HASH:E3B0")) = true) ->
        ser_out w' = ser_out (fresh []) ++ CUT).
Proof. apply allow_needs_digest_shape. reflexivity. Defined.

Lemma iterate_returns (n : nat) (l : locals) (w : world) :
  exists l' w', iterate n l w = (Ok l', w').
Proof.
  destruct (iterate_invariant (fun _ _ => True) (fun _ _ _ _ _ _ _ => I)
              (fun _ _ _ _ => I) n l w I) as (l' & w' & H & _).
  eauto.
Qed.

(** X15: [main] raises nothing.  Whatever the arguments and whatever the
    port delivers, no number of iterations of [main] ends in an
    [IndexError] or a [struct.error], and the loop of frames always comes
    back to the polling loop.  With no port argument [main] returns at
    once, having printed its usage and touched neither the port nor a
    file. *)
Theorem main_never_raises (argv : list str) (n : nat) (w : world) :
  exists (r : option locals) (w' : world),
    main argv n w = (Ok r, w')
    /\ (len argv < 2 ->
        r = None
        /\ w' = mkWorld (ser_in w) (ser_out w)
                        (stdout w
                         ++ [lit "Usage: python receiver.py <COM_PORT>";
                             lit "Example: python receiver.py COM5"])
                        (written w))
    /\ (2 <= len argv -> r <> None).
Proof.
  unfold main. destruct (len argv <? 2) eqn:E.
  - apply N.ltb_lt in E. do 2 eexists. split; [reflexivity|]. split.
    + intros _. split; [reflexivity|].
      cbn [ser_in ser_out stdout written]. rewrite <- app_assoc. reflexivity.
    + lia.
  - apply N.ltb_ge in E.
    destruct argv as [|a [|port argv]];
      try (unfold len in E; cbn in E; lia).
    unfold index. cbn [nth_error]. erewrite bind_ok by reflexivity.
    erewrite bind_ok by reflexivity.
    match goal with |- context [bind (iterate n initial) _ ?w0] =>
      destruct (iterate_returns n initial w0) as (l' & w' & H)
    end.
    rewrite (bind_ok _ _ _ _ _ H). do 2 eexists. split; [reflexivity|].
    split; [lia | discriminate].
Qed.

Lemma main_never_raises_witness :
  exists (r : option locals) (w' : world),
    main [lit "receiver.py"] 3 (fresh [RxByte x41]) = (Ok r, w')
    /\ r = None
    /\ w' = mkWorld (ser_in (fresh [RxByte x41])) (ser_out (fresh [RxByte x41]))
                    (stdout (fresh [RxByte x41])
                     ++ [lit "Usage: python receiver.py <COM_PORT>";
                         lit "Example: python receiver.py COM5"])
                    (written (fresh [RxByte x41])).
Proof.
  destruct (main_never_raises [lit "receiver.py"] 3 (fresh [RxByte x41]))
    as (r & w' & H & Hnone & _).
  exists r, w'. split; [exact H|]. apply Hnone. reflexivity.
Defined.

(** ** Lines cut, blank or ended by CR LF *)

Lemma rx_readline_silence (s : bytes) (rest : list rx_event) :
  forallb (fun b => negb (Byte.eqb b x0a)) s = true ->
  rx_readline (wire s ++ RxTimeout :: rest) = (s, rest).
Proof.
  induction s as [|b s IH]; intros H; [reflexivity|].
  cbn [forallb] in H. apply andb_true_iff in H. destruct H as [Hb Hs].
  apply negb_true_iff in Hb.
  cbn [wire map app rx_readline]. rewrite Hb.
  change (map RxByte s) with (wire s). rewrite (IH Hs). reflexivity.
Qed.

Lemma rx_readline_end (s : bytes) :
  forallb (fun b => negb (Byte.eqb b x0a)) s = true ->
  rx_readline (wire s) = (s, []).
Proof.
  induction s as [|b s IH]; intros H; [reflexivity|].
  cbn [forallb] in H. apply andb_true_iff in H. destruct H as [Hb Hs].
  apply negb_true_iff in Hb.
  cbn [wire map rx_readline]. rewrite Hb.
  change (map RxByte s) with (wire s). rewrite (IH Hs). reflexivity.
Qed.

(** An iteration of the polling loop, given what [readline] returns. *)
Lemma loop_body_read (raw : bytes) (rest : list rx_event) (l : locals)
      (w : world) :
  rx_readline (ser_in w) = (raw, rest) ->
  loop_body l w
  = match strip (decode_ignore raw) with
    | [] => (Ok l, set_ser_in w rest)
    | _ :: _ => handle_line (strip (decode_ignore raw)) l (set_ser_in w rest)
    end.
Proof.
  intros H. rewrite (loop_body_run l w _ _ (next_line_eq w)), H. reflexivity.
Qed.

Lemma decode_ascii_bytes (s : bytes) :
  forallb (fun b => Byte.to_N b <? 128) s = true ->
  decode_ignore s = map Byte.to_N s.
Proof.
  intros H. unfold decode_ignore. apply decode_ascii.
  apply Forall_forall. intros c Hc. apply in_map_iff in Hc.
  destruct Hc as (b & <- & Hb). rewrite forallb_forall in H.
  apply N.ltb_lt. auto.
Qed.

Lemma lstrip_blank (s : str) : forallb isspace s = true -> lstrip s = [].
Proof.
  induction s as [|c s IH]; [reflexivity|]. cbn [forallb lstrip].
  intros H. apply andb_true_iff in H. destruct H as [-> Hs]. auto.
Qed.

Lemma strip_blank (s : str) : forallb isspace s = true -> strip s = [].
Proof. intros H. unfold strip. rewrite (lstrip_blank s H). reflexivity. Qed.

(** White space at the end of a string is nothing to [strip]. *)
Lemma strip_snoc_space (s : str) (c : N) :
  isspace c = true -> strip (s ++ [c]) = strip s.
Proof.
  intros Hc. unfold strip. induction s as [|a s IH].
  - cbn. rewrite Hc. reflexivity.
  - cbn [app lstrip]. destruct (isspace a); [exact IH|].
    unfold rstrip. change (a :: s ++ [c]) with ((a :: s) ++ [c]).
    rewrite rev_app_distr. cbn [rev app lstrip]. rewrite Hc. reflexivity.
Qed.

Lemma strip_hash_partial (h : str) :
  forallb is_hex h = true -> strip (lit "HASH:" ++ h) = lit "HASH:" ++ h.
Proof.
  intros H. rewrite <- (strip_hash_line h H) at 2.
  rewrite app_assoc. symmetry. apply strip_snoc_space. reflexivity.
Qed.

(** X16: an announcement cut by a silence is answered at once.  When a
    line [HASH:] followed by fewer than 64 hexadecimal digits is cut by a
    silence as long as the timeout, [readline] returns what arrived, and
    the receiver answers [CUT], writes the buffer to the next capture and
    empties it; what arrives after the silence is read as another
    line. *)
Theorem announcement_cut_by_silence (h : str) (rest : list rx_event)
        (l : locals) (w : world) :
  forallb is_hex h = true ->
  (List.length h < 64)%nat ->
  ser_in w = wire (encode (lit "HASH:" ++ h)) ++ RxTimeout :: rest ->
  exists out : list str,
    loop_body l w
    = (Ok (mkLocals [] (file_counter l + 1) (Some h)),
       mkWorld rest (ser_out w ++ CUT) out
               (written w ++ [(capture_name (file_counter l + 1), ciphertext l)])).
Proof.
  intros H Hlen Hin.
  assert (Hplain : forall c, In c (lit "HASH:" ++ h) ->
                     c < 128 /\ Byte.to_N (byte_of_N c) = c
                     /\ Byte.eqb (byte_of_N c) x0a = false).
  { intros c Hc. apply in_app_or in Hc. destruct Hc as [Hc | Hc].
    - cbn in Hc. repeat (destruct Hc as [<- | Hc]; [repeat split; reflexivity|]).
      contradiction.
    - rewrite forallb_forall in H.
      destruct (is_hex_plain c (H c Hc)) as (_ & _ & ? & ? & ?). auto. }
  assert (Hraw : rx_readline (ser_in w) = (encode (lit "HASH:" ++ h), rest)).
  { rewrite Hin. apply rx_readline_silence. apply forallb_forall.
    intros b Hb. apply in_map_iff in Hb. destruct Hb as (c & <- & Hc).
    destruct (Hplain c Hc) as (_ & _ & ->). reflexivity. }
  assert (Hline : strip (decode_ignore (encode (lit "HASH:" ++ h)))
                  = lit "HASH:" ++ h).
  { unfold decode_ignore, encode. rewrite map_map.
    rewrite (map_ext_in _ (fun c => c)), map_id
      by (intros c Hc; apply (Hplain c Hc)).
    rewrite decode_ascii
      by (apply Forall_forall; intros c Hc; apply (Hplain c Hc)).
    apply strip_hash_partial. exact H. }
  rewrite (loop_body_read _ _ l w Hraw), Hline.
  change (lit "HASH:" ++ h) with (72 :: (lit "ASH:" ++ h)). cbv iota.
  change (72 :: (lit "ASH:" ++ h)) with (lit "HASH:" ++ h).
  rewrite handle_line_hash, on_hash_run by reflexivity.
  rewrite (announced_hex h H), verdict_command_other.
  - eexists. reflexivity.
  - intros E. rewrite E, hexdigest_length in Hlen. lia.
Qed.

Lemma announcement_cut_by_silence_witness :
  exists out : list str,
    loop_body (mkLocals [x01] 0 None)
              (fresh (wire (encode (lit "HASH:" ++ lit "4bf5"))
                      ++ RxTimeout :: wire (blit "122f")))
    = (Ok (mkLocals [] (0 + 1) (Some (lit "4bf5"))),
       mkWorld (wire (blit "122f")) ([] ++ CUT) out
               ([] ++ [(capture_name (0 + 1), [x01])])).
Proof.
  apply (announcement_cut_by_silence (lit "4bf5") (wire (blit "122f"))
           (mkLocals [x01] 0 None)
           (fresh (wire (encode (lit "HASH:" ++ lit "4bf5"))
                   ++ RxTimeout :: wire (blit "122f")))).
  - reflexivity.
  - cbn. lia.
  - reflexivity.
Defined.

(** X17: blank lines and silences are skipped.  When the polling loop
    reads a line made of ASCII white space only (an empty line, a lone
    carriage return, spaces), ended by a line feed, by a silence or by
    the end of the data, nothing changes but what is pending on the
    port: no print, no command, no file, and the same variables. *)
Theorem blank_line_skipped (s : bytes) (rest : list rx_event)
        (l : locals) (w : world) :
  forallb (fun b => isspace (Byte.to_N b) && (Byte.to_N b <? 128)
                    && negb (Byte.eqb b x0a)) s = true ->
  (ser_in w = wire (s ++ [x0a]) ++ rest
   \/ ser_in w = wire s ++ RxTimeout :: rest
   \/ (ser_in w = wire s /\ rest = [])) ->
  loop_body l w = (Ok l, set_ser_in w rest).
Proof.
  intros H Hin.
  assert (Hlf : forallb (fun b => negb (Byte.eqb b x0a)) s = true).
  { rewrite forallb_forall in *. intros b Hb. specialize (H b Hb).
    rewrite !andb_true_iff in H. tauto. }
  assert (Hascii : forallb (fun b => Byte.to_N b <? 128) s = true).
  { rewrite forallb_forall in *. intros b Hb. specialize (H b Hb).
    rewrite !andb_true_iff in H. tauto. }
  assert (Hsp : forallb isspace (map Byte.to_N s) = true).
  { rewrite forallb_forall in *. intros c Hc. apply in_map_iff in Hc.
    destruct Hc as (b & <- & Hb). specialize (H b Hb).
    rewrite !andb_true_iff in H. tauto. }
  destruct Hin as [Hin | [Hin | [Hin ->]]].
  - rewrite (loop_body_read (s ++ [x0a]) rest l w)
      by (rewrite Hin; apply rx_readline_wire; exact Hlf).
    rewrite decode_ascii_bytes
      by (rewrite forallb_app, Hascii; reflexivity).
    rewrite map_app. change (map Byte.to_N [x0a]) with [10].
    rewrite strip_snoc_space by reflexivity.
    rewrite (strip_blank _ Hsp). reflexivity.
  - rewrite (loop_body_read s rest l w)
      by (rewrite Hin; apply rx_readline_silence; exact Hlf).
    rewrite (decode_ascii_bytes s Hascii), (strip_blank _ Hsp). reflexivity.
  - rewrite (loop_body_read s [] l w)
      by (rewrite Hin; apply rx_readline_end; exact Hlf).
    rewrite (decode_ascii_bytes s Hascii), (strip_blank _ Hsp). reflexivity.
Qed.

Lemma blank_line_skipped_witness :
  loop_body (mkLocals [x01] 2 None)
            (fresh (wire ([x20; x0d] ++ [x0a]) ++ [RxByte x41]))
  = (Ok (mkLocals [x01] 2 None),
     set_ser_in (fresh (wire ([x20; x0d] ++ [x0a]) ++ [RxByte x41]))
                [RxByte x41]).
Proof.
  apply (blank_line_skipped [x20; x0d] [RxByte x41]).
  - reflexivity.
  - left. reflexivity.
Defined.

(** X18: CR LF ends a line as LF does.  For a line of ASCII characters,
    an iteration of the polling loop does the same whether the line is
    ended by a carriage return and a line feed or by a line feed
    alone. *)
Theorem crlf_as_lf (s : bytes) (rest : list rx_event) (l : locals)
        (w : world) :
  forallb (fun b => (Byte.to_N b <? 128) && negb (Byte.eqb b x0a)) s = true ->
  loop_body l (set_ser_in w (wire (s ++ [x0d; x0a]) ++ rest))
  = loop_body l (set_ser_in w (wire (s ++ [x0a]) ++ rest)).
Proof.
  intros H.
  assert (Hlf : forallb (fun b => negb (Byte.eqb b x0a)) s = true).
  { rewrite forallb_forall in *. intros b Hb. specialize (H b Hb).
    rewrite !andb_true_iff in H. tauto. }
  assert (Hascii : forallb (fun b => Byte.to_N b <? 128) s = true).
  { rewrite forallb_forall in *. intros b Hb. specialize (H b Hb).
    rewrite !andb_true_iff in H. tauto. }
  rewrite (loop_body_read ((s ++ [x0d]) ++ [x0a]) rest l).
  2:{ cbn [ser_in set_ser_in].
      replace (s ++ [x0d; x0a]) with ((s ++ [x0d]) ++ [x0a])
        by (rewrite <- app_assoc; reflexivity).
      apply rx_readline_wire. rewrite forallb_app, Hlf. reflexivity. }
  rewrite (loop_body_read (s ++ [x0a]) rest l)
    by (apply rx_readline_wire; exact Hlf).
  rewrite !decode_ascii_bytes
    by (rewrite ?forallb_app, Hascii; reflexivity).
  rewrite !map_app.
  change (map Byte.to_N [x0a]) with [10].
  change (map Byte.to_N [x0d]) with [13].
  rewrite (strip_snoc_space _ 10 eq_refl), (strip_snoc_space _ 13 eq_refl).
  rewrite (strip_snoc_space _ 10 eq_refl). reflexivity.
Qed.

Lemma crlf_as_lf_witness :
  loop_body initial
            (set_ser_in (fresh []) (wire (blit "HASH:00" ++ [x0d; x0a]) ++ []))
  = loop_body initial
              (set_ser_in (fresh []) (wire (blit "HASH:00" ++ [x0a]) ++ [])).
Proof. apply crlf_as_lf. reflexivity. Defined.

(** ** Both ends of the link *)

Lemma peer_idle (n : nat) (w : world) :
  ser_in w = [] -> peer_iterate n w = (Ok tt, w).
Proof.
  intros H. induction n as [|n IH]; [reflexivity|].
  cbn [peer_iterate]. erewrite bind_ok; [exact IH|].
  destruct w as [rx so out wr]. cbn in H. subst rx. reflexivity.
Qed.

Lemma peer_reads_allow (n : nat) (so : bytes) (out : list str)
      (wr : list (str * bytes)) :
  peer_iterate (S n) (mkWorld (wire ALLOW) so out wr)
  = (Ok tt, mkWorld [] so (out ++ [lit "[RX from PC] ALLOW"]) wr).
Proof.
  cbn [peer_iterate]. erewrite bind_ok by reflexivity.
  apply peer_idle. reflexivity.
Qed.

(** X19: a whole exchange.  For every payload, [main] of the peer, given
    a port, writes the session of this payload and then, reading [ALLOW]
    from the port, prints [[RX from PC] ALLOW]; and [ALLOW] is what the
    receiver writes when it reads this session, having saved the payload
    as [received_1.bin]. *)
Theorem duplex_session (argv : list str) (port : str) (payload : bytes)
        (n : nat) :
  nth_error argv 1 = Some port ->
  peer_main argv payload (S n) (fresh (wire ALLOW))
  = (Ok tt,
     mkWorld [] (session_bytes payload (sha256_hexdigest payload))
             [lit "[INFO] Simulating STM32 on " ++ port;
              lit "[DONE] Fake transfer sent. Waiting for PC response...";
              lit "[RX from PC] ALLOW"]
             [])
  /\ exists out : list str,
       iterate 5 initial
               (fresh (wire (session_bytes payload (sha256_hexdigest payload))))
       = (Ok (mkLocals [] 1 (Some (sha256_hexdigest payload))),
          mkWorld [] ALLOW out [(capture_name 1, payload)]).
Proof.
  intros Hport. split.
  - unfold peer_main.
    destruct argv as [|a [|p argv]]; try discriminate.
    replace (len (a :: p :: argv) <? 2) with false
      by (symmetry; apply N.ltb_ge; rewrite !len_cons; lia).
    unfold index. rewrite Hport. erewrite bind_ok by reflexivity.
    erewrite bind_ok by reflexivity.
    unfold sender_main. rewrite (bind_ok _ _ _ _ _ (simulate_run _ _ _)).
    cbn [ser_in ser_out stdout written fresh app].
    apply peer_reads_allow.
  - destruct (receive_session_alone payload (sha256_hexdigest payload) 0
                (hexdigest_hex payload)) as (out & H).
    exists out. rewrite verdict_command_digest in H. exact H.
Qed.

Lemma duplex_session_witness :
  peer_main [lit "sender.py"; lit "COM6"] [x01; x02] (S 0) (fresh (wire ALLOW))
  = (Ok tt,
     mkWorld [] (session_bytes [x01; x02] (sha256_hexdigest [x01; x02]))
             [lit "[INFO] Simulating STM32 on " ++ lit "COM6";
              lit "[DONE] Fake transfer sent. Waiting for PC response...";
              lit "[RX from PC] ALLOW"]
             [])
  /\ exists out : list str,
       iterate 5 initial
               (fresh (wire (session_bytes [x01; x02]
                                           (sha256_hexdigest [x01; x02]))))
       = (Ok (mkLocals [] 1 (Some (sha256_hexdigest [x01; x02]))),
          mkWorld [] ALLOW out [(capture_name 1, [x01; x02])]).
Proof. apply duplex_session. reflexivity. Defined.

(** ** What the peer frames, and an announcement with no line before it *)

(** X20: the peer frames the whole payload, in order.  Between the
    chunk-start line and the chunk-end line, [main] of the peer writes
    one frame for each piece of the payload; the pieces are not empty,
    hold 4096 bytes at most, and make up the payload when put end to
    end; there are as many of them as 4096 goes into the length of the
    payload, rounded up. *)
Theorem peer_frames_payload (payload : bytes) (hash_hex : str) (w : world) :
  exists ps : list bytes,
    simulate payload hash_hex w
    = (Ok tt,
       mkWorld (ser_in w)
               (ser_out w
                ++ (blit "EVENT:USB_INSERTED" ++ [x0a])
                ++ (blit "CHUNK_START" ++ [x0a])
                ++ List.concat (map frame_bytes ps)
                ++ (blit "CHUNK_END" ++ [x0a])
                ++ encode (lit "HASH:" ++ hash_hex ++ [LF])
                ++ (blit "STATUS:COMPLETE" ++ [x0a]))
               (stdout w
                ++ [lit "[DONE] Fake transfer sent. Waiting for PC response..."])
               (written w))
    /\ List.concat ps = payload
    /\ Forall (fun p => p <> [] /\ (List.length p <= 4096)%nat) ps
    /\ List.length ps = ((List.length payload + 4095) / 4096)%nat.
Proof.
  exists (chunks payload). split; [apply simulate_run|].
  destruct (chunks_spec payload) as [Hc Hf]. split; [exact Hc|].
  split; [exact Hf|].
  unfold chunks, range_step. rewrite !length_map, length_seq.
  rewrite range_step_count, len_length. reflexivity.
Qed.

Lemma strip_ash_line (h : str) :
  forallb is_hex h = true ->
  strip (lit "ASH:" ++ h ++ [LF]) = lit "ASH:" ++ h.
Proof.
  intros H. rewrite app_assoc, strip_snoc_space by reflexivity.
  unfold strip, rstrip.
  rewrite (lstrip_kept (lit "ASH:" ++ h)) by exact eq_refl.
  rewrite lstrip_kept; [apply rev_involutive|].
  rewrite rev_app_distr.
  pose proof (hex_head (rev h)) as Hh. rewrite forallb_rev in Hh.
  specialize (Hh H). destruct (rev h); [exact eq_refl | exact Hh].
Qed.

(** X21: an announcement that follows the frames directly is lost.
    When the line of [HASH:] comes right after the last frame, with no
    line and no silence in between, [read_frame] takes its first byte
    for a start marker; the polling loop then reads a line that starts
    with [ASH:], which it does not know: no command is sent, no capture
    is written, and the buffer keeps the payload. *)
Theorem announcement_after_frames_lost (ps : list bytes) (h : str)
        (l : locals) (w : world) (rest : list rx_event) :
  Forall carried ps ->
  forallb is_hex h = true ->
  ser_in w
  = wire ((blit "CHUNK_START" ++ [x0a])
          ++ List.concat (map frame_bytes ps)
          ++ encode (lit "HASH:" ++ h ++ [LF])) ++ rest ->
  exists out : list str,
    iterate 2 l w
    = (Ok (mkLocals (ciphertext l ++ List.concat ps) (file_counter l)
                    (current_hash_expected l)),
       mkWorld rest (ser_out w) out (written w)).
Proof.
  intros Hps H Hin.
  destruct (encode_hash_line h H) as (s & Hs & Hlf & Hline).
  assert (exists s', s = x48 :: s'
                     /\ strip (decode_ignore (s' ++ [x0a])) = lit "ASH:" ++ h)
    as (s' & -> & Hline').
  { exists (encode (lit "ASH:" ++ h)).
    assert (s = encode (lit "HASH:" ++ h)) as ->.
    { apply (app_inv_tail [x0a]). rewrite <- Hs. unfold encode.
      rewrite app_assoc, map_app. reflexivity. }
    split; [reflexivity|].
    assert (Hplain : forall c, In c (lit "ASH:" ++ h ++ [LF]) ->
                       c < 128 /\ Byte.to_N (byte_of_N c) = c).
    { intros c Hc. apply in_app_or in Hc. destruct Hc as [Hc | Hc].
      - cbn in Hc.
        repeat (destruct Hc as [<- | Hc]; [split; reflexivity|]).
        contradiction.
      - apply in_app_or in Hc. destruct Hc as [Hc | [<- | []]];
          [|split; reflexivity].
        rewrite forallb_forall in H.
        destruct (is_hex_plain c (H c Hc)) as (_ & _ & ? & ? & _). auto. }
    unfold decode_ignore.
    replace (map Byte.to_N (encode (lit "ASH:" ++ h) ++ [x0a]))
      with (lit "ASH:" ++ h ++ [LF]).
    - rewrite decode_ascii
        by (apply Forall_forall; intros c Hc; apply (Hplain c Hc)).
      apply strip_ash_line. exact H.
    - unfold encode. rewrite map_app, map_map.
      rewrite (map_ext_in _ (fun c => c)), map_id, <- app_assoc; [reflexivity|].
      intros c Hc. apply Hplain. apply in_or_app.
      apply in_app_or in Hc. destruct Hc; [left | right; apply in_or_app; left];
        assumption. }
  cbn [forallb] in Hlf. apply andb_true_iff in Hlf. destruct Hlf as [_ Hlf].
  set (r2 := wire (s' ++ [x0a]) ++ rest).
  assert (Hin' : ser_in w
                 = wire (blit "CHUNK_START" ++ [x0a])
                   ++ wire (List.concat (map frame_bytes ps))
                   ++ RxByte x48 :: r2).
  { rewrite Hin, Hs. unfold r2, wire. rewrite !map_app, <- !app_assoc.
    reflexivity. }
  destruct (other_line_run
              (lit "ASH:" ++ h)
              (mkLocals (ciphertext l ++ List.concat ps) (file_counter l)
                        (current_hash_expected l))
              (mkWorld rest (ser_out w)
                       (stdout w ++ [lit "[STM32] Beginning file stream..."])
                       (written w))
              eq_refl eq_refl eq_refl) as (out & Hrun & _).
  cbn [iterate].
  erewrite bind_ok.
  2:{ erewrite (loop_body_line (blit "CHUNK_START") _ (lit "CHUNK_START")
                  _ _ eq_refl eq_refl); [ | discriminate | exact Hin'].
      rewrite handle_line_chunk_start.
      erewrite bind_ok
        by (apply (stream_frames_burst ps _ _ (RxByte x48 :: r2) Hps);
            [cbn; discriminate | reflexivity]).
      reflexivity. }
  cbn [tl].
  erewrite bind_ok.
  2:{ erewrite (loop_body_line s' rest (lit "ASH:" ++ h) _ _ Hlf Hline');
        [ | discriminate | reflexivity].
      exact Hrun. }
  cbn [ret ser_in ser_out stdout written set_ser_in]. eexists. reflexivity.
Qed.

Lemma announcement_after_frames_lost_witness :
  exists out : list str,
    iterate 2 initial
            (fresh (wire ((blit "CHUNK_START" ++ [x0a])
                          ++ List.concat (map frame_bytes [[x01; x02]])
                          ++ encode (lit "HASH:" ++ lit "00" ++ [LF])) ++ []))
    = (Ok (mkLocals ([] ++ List.concat [[x01; x02]]) 0 None),
       mkWorld [] [] out []).
Proof.
  apply (announcement_after_frames_lost [[x01; x02]] (lit "00") initial
           (fresh (wire ((blit "CHUNK_START" ++ [x0a])
                         ++ List.concat (map frame_bytes [[x01; x02]])
                         ++ encode (lit "HASH:" ++ lit "00" ++ [LF])) ++ []))
           []).
  - repeat constructor; try discriminate; vm_compute; discriminate.
  - reflexivity.
  - reflexivity.
Defined.

(** ** An insertion event during streaming *)

(** An insertion event that follows the frames directly is not read as
    one.  After any burst of frames, when the line [EVENT:USB_INSERTED]
    comes with no line and no silence before it, [read_frame] takes its
    first byte for a start marker; the polling loop reads
    [VENT:USB_INSERTED], which it does not know, and the buffer keeps the
    payloads of the session that the event should have discarded. *)
Lemma insertion_after_frames_not_read (ps : list bytes) (l : locals)
      (w : world) (rest : list rx_event) :
  Forall carried ps ->
  ser_in w
  = wire ((blit "CHUNK_START" ++ [x0a])
          ++ List.concat (map frame_bytes ps)
          ++ (blit "EVENT:USB_INSERTED" ++ [x0a])) ++ rest ->
  exists out : list str,
    iterate 2 l w
    = (Ok (mkLocals (ciphertext l ++ List.concat ps) (file_counter l)
                    (current_hash_expected l)),
       mkWorld rest (ser_out w) out (written w)).
Proof.
  intros Hps Hin.
  set (r2 := wire (blit "VENT:USB_INSERTED" ++ [x0a]) ++ rest).
  assert (Hin' : ser_in w
                 = wire (blit "CHUNK_START" ++ [x0a])
                   ++ wire (List.concat (map frame_bytes ps))
                   ++ RxByte x45 :: r2).
  { rewrite Hin. unfold r2, wire. rewrite !map_app, <- !app_assoc.
    reflexivity. }
  destruct (other_line_run
              (lit "VENT:USB_INSERTED")
              (mkLocals (ciphertext l ++ List.concat ps) (file_counter l)
                        (current_hash_expected l))
              (mkWorld rest (ser_out w)
                       (stdout w ++ [lit "[STM32] Beginning file stream..."])
                       (written w))
              eq_refl eq_refl eq_refl) as (out & Hrun & _).
  cbn [iterate].
  erewrite bind_ok.
  2:{ erewrite (loop_body_line (blit "CHUNK_START") _ (lit "CHUNK_START")
                  _ _ eq_refl eq_refl); [ | discriminate | exact Hin'].
      rewrite handle_line_chunk_start.
      erewrite bind_ok
        by (apply (stream_frames_burst ps _ _ (RxByte x45 :: r2) Hps);
            [cbn; discriminate | reflexivity]).
      reflexivity. }
  cbn [tl].
  erewrite bind_ok.
  2:{ erewrite (loop_body_line (blit "VENT:USB_INSERTED") rest
                  (lit "VENT:USB_INSERTED") _ _ eq_refl eq_refl);
        [ | discriminate | reflexivity].
      exact Hrun. }
  cbn [ret ser_in ser_out stdout written set_ser_in]. eexists. reflexivity.
Qed.

(** C6 fails on the code.  In the run below a session streams one frame
    of sixteen zero bytes and the device then sends a new insertion
    event, right after the frame; the polling loop reads
    [VENT:USB_INSERTED], the buffer is not emptied, and the line of
    [HASH:] that follows is answered [ALLOW], over the sixteen bytes of
    the session that the event should have discarded, which are also
    written to the capture. *)
Lemma insertion_during_streaming_missed :
  let rx := wire ((blit "EVENT:USB_INSERTED" ++ [x0a])
                  ++ (blit "CHUNK_START" ++ [x0a])
                  ++ frame_bytes zeros16
                  ++ (blit "EVENT:USB_INSERTED" ++ [x0a])
                  ++ encode (lit "HASH:" ++ SHA_ZEROS16 ++ [LF])) in
  lines_read 4 initial (fresh rx)
  = [lit "EVENT:USB_INSERTED"; lit "CHUNK_START"; lit "VENT:USB_INSERTED";
     lit "HASH:" ++ SHA_ZEROS16]
  /\ (exists (w : world),
        iterate 3 initial (fresh rx) = (Ok (mkLocals zeros16 0 None), w)
        /\ ser_out w = [])
  /\ exists out : list str,
       iterate 4 initial (fresh rx)
       = (Ok (mkLocals [] 1 (Some SHA_ZEROS16)),
          mkWorld [] ALLOW out [(capture_name 1, zeros16)]).
Proof.
  split; [vm_compute; reflexivity|]. split.
  - eexists. split; vm_compute; reflexivity.
  - eexists. vm_compute. reflexivity.
Qed.
